(** * core2: the IRC message codec, the hook matcher, the hook registry
      and the server configuration, embedded from the Python sources

    Conventions of the embedding.
    - A Python [str] is a [string]; its characters are read as ASCII code
      points, on which [isdigit], [isspace] and [upper] below are CPython's.
    - [None] is the [None] of an [option]; truthiness is written out.
    - A raising call returns [Raise e]; the exception classes are the
      constructors of [exn].
    - A [dict] whose iteration order is observable is an association list
      with CPython's insertion-order semantics; a [set] that is only
      iterated or searched is the list of its elements in iteration order.
    - The numeric table ([numerics.json]) and the matchers of the Python
      standard library ([fnmatchcase], [re.match]) are interfaces.
    - The socket is the environment: an operation that sends is given how
      the socket takes the bytes. *)

From Stdlib Require Import String Ascii List ZArith Bool Lia DecimalString.
From Stdlib Require Import DecimalPos.
Import ListNotations.

#[local] Open Scope string_scope.
#[local] Open Scope list_scope.

(** ** Exceptions and results *)

Inductive exn : Type :=
| IndexError
| ValueError
| TypeError
| AttributeError
| NameError
| ReError.

Inductive result (A : Type) : Type :=
| Ok (a : A)
| Raise (e : exn).

Arguments Ok {A} a.
Arguments Raise {A} e.

Definition bind {A B : Type} (r : result A) (k : A -> result B) : result B :=
  match r with
  | Ok a => k a
  | Raise e => Raise e
  end.

Declare Scope py_scope.
Delimit Scope py_scope with py.
Notation "x <- e ;; k" := (bind e (fun x => k))
  (at level 61, e at next level, right associativity) : py_scope.
Notation "' p <- e ;; k" := (bind e (fun x => let p := x in k))
  (at level 61, p pattern, e at next level, right associativity) : py_scope.
#[local] Open Scope py_scope.

(** ** Python string primitives *)

Module Str.

Definition space : ascii := " "%char.
Definition colon : ascii := ":"%char.
Definition bang : ascii := "!"%char.
Definition at_sign : ascii := "@"%char.

(** [bool(s)] *)
Definition nonempty (s : string) : bool :=
  match s with EmptyString => false | String _ _ => true end.

(** [bool(o)] for an [Optional[str]] *)
Definition truthy (o : option string) : bool :=
  match o with Some s => nonempty s | None => false end.

(** [c in s] for a one-character [c] *)
Fixpoint contains (c : ascii) (s : string) : bool :=
  match s with
  | EmptyString => false
  | String a s' => Ascii.eqb a c || contains c s'
  end.

(** [s[0]] *)
Definition head (s : string) : result ascii :=
  match s with EmptyString => Raise IndexError | String a _ => Ok a end.

(** [s[1:]] *)
Definition tail (s : string) : string :=
  match s with EmptyString => EmptyString | String _ s' => s' end.

(** [s.split(c)] for a one-character separator: never empty. *)
Fixpoint split (c : ascii) (s : string) : list string :=
  match s with
  | EmptyString => [EmptyString]
  | String a s' =>
      if Ascii.eqb a c then EmptyString :: split c s'
      else match split c s' with
           | w :: ws => String a w :: ws
           | [] => [String a EmptyString]
           end
  end.

(** [s.rsplit(c, 1)] *)
Fixpoint rsplit1 (c : ascii) (s : string) : list string :=
  match s with
  | EmptyString => [EmptyString]
  | String a s' =>
      match rsplit1 c s' with
      | [w] => if Ascii.eqb a c then [EmptyString; w] else [String a w]
      | w :: ws => String a w :: ws
      | [] => [String a EmptyString]
      end
  end.

(** [s.split(c, 1)] *)
Fixpoint split1 (c : ascii) (s : string) : list string :=
  match s with
  | EmptyString => [EmptyString]
  | String a s' =>
      if Ascii.eqb a c then [EmptyString; s']
      else match split1 c s' with
           | w :: ws => String a w :: ws
           | [] => [String a EmptyString]
           end
  end.

Fixpoint lstrip_spaces (s : string) : string :=
  match s with
  | String a s' => if Ascii.eqb a space then lstrip_spaces s' else s
  | EmptyString => EmptyString
  end.

(** [re.split(RE_SPACE, s, 1)] with [RE_SPACE = re.compile(r" +")]: one
    split at the leftmost run of spaces, the whole run being consumed. *)
Fixpoint re_split_space (s : string) : list string :=
  match s with
  | EmptyString => [EmptyString]
  | String a s' =>
      if Ascii.eqb a space then [EmptyString; lstrip_spaces s']
      else match re_split_space s' with
           | w :: ws => String a w :: ws
           | [] => [String a EmptyString]
           end
  end.

(** [a, b = l] *)
Definition unpack2 (l : list string) : result (string * string) :=
  match l with
  | [a; b] => Ok (a, b)
  | _ => Raise ValueError
  end.

(** [a, *rest = l] *)
Definition unpack_star (l : list string) : result (string * list string) :=
  match l with
  | a :: rest => Ok (a, rest)
  | [] => Raise ValueError
  end.

Definition is_digit_char (c : ascii) : bool :=
  let n := nat_of_ascii c in (48 <=? n)%nat && (n <=? 57)%nat.

Fixpoint all_digits (s : string) : bool :=
  match s with
  | EmptyString => true
  | String a s' => is_digit_char a && all_digits s'
  end.

(** [s.isdigit()]: false on the empty string. *)
Definition isdigit (s : string) : bool := nonempty s && all_digits s.

Fixpoint int_acc (acc : Z) (s : string) : Z :=
  match s with
  | EmptyString => acc
  | String a s' => int_acc (10 * acc + (Z.of_nat (nat_of_ascii a) - 48)) s'
  end.

(** [int(s)] on a string of decimal digits. *)
Definition int (s : string) : Z := int_acc 0 s.

(** [str(n)] *)
Definition of_Z (n : Z) : string := NilZero.string_of_int (Z.to_int n).

Fixpoint zeros (n : nat) : string :=
  match n with O => EmptyString | S n' => String "0"%char (zeros n') end.

Definition zfill (w : nat) (s : string) : string :=
  (zeros (w - String.length s) ++ s)%string.

(** [f"{n:03d}"]: zero padding to width three, the sign counted. *)
Definition format_03d (n : Z) : string :=
  if (n <? 0)%Z then String "-"%char (zfill 2 (of_Z (Z.opp n)))
  else zfill 3 (of_Z n).

Definition upper_char (c : ascii) : ascii :=
  let n := nat_of_ascii c in
  if (97 <=? n)%nat && (n <=? 122)%nat then ascii_of_nat (n - 32) else c.

(** [s.upper()] *)
Fixpoint upper (s : string) : string :=
  match s with
  | EmptyString => EmptyString
  | String a s' => String (upper_char a) (upper s')
  end.

(** [c.isspace()]: tab to carriage return, the four separators
    0x1c-0x1f and the space. *)
Definition is_space_char (c : ascii) : bool :=
  let n := nat_of_ascii c in
  ((9 <=? n)%nat && (n <=? 13)%nat)
  || ((28 <=? n)%nat && (n <=? 31)%nat)
  || (n =? 32)%nat.

(** [s.split()]: the maximal runs of characters that are not whitespace.
    [cur] is the token being read, reversed. *)
Fixpoint split_ws_acc (cur : list ascii) (s : string) : list string :=
  match s with
  | EmptyString =>
      match cur with
      | [] => []
      | _ => [string_of_list_ascii (rev cur)]
      end
  | String a s' =>
      if is_space_char a then
        match cur with
        | [] => split_ws_acc [] s'
        | _ => string_of_list_ascii (rev cur) :: split_ws_acc [] s'
        end
      else split_ws_acc (a :: cur) s'
  end.

Definition split_ws (s : string) : list string := split_ws_acc [] s.

Fixpoint all_space (s : string) : bool :=
  match s with
  | EmptyString => true
  | String a s' => is_space_char a && all_space s'
  end.

(** [s.endswith(suffix)] *)
Definition endswith (s suffix : string) : bool :=
  let n := String.length s in
  let m := String.length suffix in
  (m <=? n)%nat && (substring (n - m) m s =? suffix).

(** [s.startswith(p)] *)
Definition startswith (s p : string) : bool := String.prefix p s.

(** [s[:-k]] *)
Definition drop_last (k : nat) (s : string) : string :=
  substring 0 (String.length s - k) s.

Fixpoint lstrip (s : string) : string :=
  match s with
  | String a s' => if is_space_char a then lstrip s' else s
  | EmptyString => EmptyString
  end.

Definition rev_string (s : string) : string :=
  string_of_list_ascii (rev (list_ascii_of_string s)).

(** [s.strip()] *)
Definition strip (s : string) : string :=
  rev_string (lstrip (rev_string (lstrip s))).

(** [int(s)] on any string: surrounding whitespace, one optional sign,
    then decimal digits in groups separated by single underscores;
    [None] stands for [ValueError]. *)
Definition parse_int (s : string) : option Z :=
  let s1 := strip s in
  let '(negative, body) :=
    match s1 with
    | String "-"%char r => (true, r)
    | String "+"%char r => (false, r)
    | _ => (false, s1)
    end in
  let groups := split "_"%char body in
  if forallb isdigit groups then
    let n := int (String.concat EmptyString groups) in
    Some (if negative then Z.opp n else n)
  else None.

(** [x in s] for two strings *)
Fixpoint is_substring (x s : string) : bool :=
  String.prefix x s
  || match s with
     | EmptyString => false
     | String _ s' => is_substring x s'
     end.

(** [" ".join(l)] *)
Definition join (l : list string) : string := String.concat " " l.

Definition option_eqb (a b : option string) : bool :=
  match a, b with
  | Some x, Some y => x =? y
  | None, None => true
  | _, _ => false
  end.

End Str.

(** ** message.py *)

(** The two dictionaries built from [numerics.json] when the module is
    imported. The data file is not part of the sources: the dictionaries
    are an interface, [get] being the lookup. *)
Class NumericTable : Type := {
  NUMERIC_TO_SYMBOLIC : Z -> option string;
  SYMBOLIC_TO_NUMERIC : string -> option Z
}.

Module Prefix.

Record t : Type := mk {
  name : option string;
  user : option string;
  host : option string;
  raw : string;
  orig : string
}.

Definition part (sep : string) (o : option string) : string :=
  match o with
  | Some s => if Str.nonempty s then (sep ++ s)%string else EmptyString
  | None => EmptyString
  end.

(** [Prefix.__init__] *)
Definition init (name user host orig : option string) : t :=
  let raw :=
    match name with
    | Some n =>
        if Str.nonempty n
        then (":" ++ n ++ part "!" user ++ part "@" host)%string
        else EmptyString
    | None => EmptyString
    end in
  mk name user host raw (match orig with None => raw | Some o => o end).

(** [Prefix()] *)
Definition empty : t := init None None None None.

(** [Prefix.from_raw] *)
Definition from_raw (raw : string) : result t :=
  if Str.contains Str.bang raw then
    '(name, user) <- Str.unpack2 (Str.split Str.bang raw) ;;
    if Str.contains Str.at_sign user then
      '(user, host) <- Str.unpack2 (Str.split Str.at_sign user) ;;
      Ok (init (Some name) (Some user) (Some host) (Some raw))
    else Ok (init (Some name) (Some user) None (Some raw))
  else if Str.contains Str.at_sign raw then
    '(name, host) <- Str.unpack2 (Str.split Str.at_sign raw) ;;
    Ok (init (Some name) None (Some host) (Some raw))
  else Ok (init (Some raw) None None (Some raw)).

(** [Prefix.__bool__] *)
Definition bool_ (p : t) : bool :=
  Str.truthy (name p) || Str.truthy (user p) || Str.truthy (host p).

(** [Prefix.__eq__] against another [Prefix] *)
Definition eq (p q : t) : bool :=
  Str.option_eqb (name p) (name q)
  && Str.option_eqb (user p) (user q)
  && Str.option_eqb (host p) (host q).

(** [Prefix.__eq__] against a [str], which is parsed first *)
Definition eq_str (p : t) (other : string) : result bool :=
  q <- from_raw other ;; Ok (eq p q).

(** [Prefix.__eq__] against [None] *)
Definition eq_none (p : t) : bool :=
  match name p with None => true | Some _ => false end.

End Prefix.

Module Command.

Record t : Type := mk {
  orig : string;
  numeric : option Z;
  symbolic : option string;
  recognized : bool;
  raw : string
}.

Definition truthy_int (o : option Z) : bool :=
  match o with Some n => negb (n =? 0)%Z | None => false end.

Section WithTable.
Context {table : NumericTable}.

(** [Command.__init__] on a [str] *)
Definition init (orig : string) : t :=
  let '(numeric, symbolic, text) :=
    if Str.isdigit orig then
      let n := Str.int orig in
      (Some n, NUMERIC_TO_SYMBOLIC n, orig)
    else
      let up := Str.upper orig in
      (SYMBOLIC_TO_NUMERIC up, Some up, up) in
  let raw :=
    if truthy_int numeric
    then match numeric with Some n => Str.format_03d n | None => text end
    else if Str.truthy symbolic
    then match symbolic with Some s => s | None => text end
    else text in
  mk orig numeric symbolic (Str.truthy symbolic) raw.

End WithTable.

(** [Command.try_symbolic] *)
Definition try_symbolic (c : t) : string :=
  match symbolic c with
  | Some s => if Str.nonempty s then s else raw c
  | None => raw c
  end.

(** [Command.__bool__] *)
Definition bool_ (c : t) : bool := recognized c.

Fixpoint lstrip_zeros (s : string) : string :=
  match s with
  | String a s' => if Ascii.eqb a "0"%char then lstrip_zeros s' else s
  | EmptyString => EmptyString
  end.

(** [Command.__eq__] against a [str] *)
Definition eq_str (c : t) (other : string) : bool :=
  match symbolic c with
  | Some s => Str.nonempty s && (s =? other)
  | None => false
  end
  || match numeric c with
     | Some n => negb (n =? 0)%Z && (Str.of_Z n =? lstrip_zeros other)
     | None => false
     end.

(** [Command.try_numeric]: the format [03d] is applied to [self.numeric]
    whenever [self.symbolic] is truthy, and raises on [None]. *)
Definition try_numeric (c : t) : result string :=
  if Str.truthy (symbolic c) then
    match numeric c with
    | Some n => Ok (Str.format_03d n)
    | None => Raise TypeError
    end
  else Ok (raw c).

(** [Command.__eq__] against another [Command] *)
Definition eq (c d : t) : bool :=
  match numeric c, numeric d with
  | Some n, Some n' => (n =? n')%Z
  | None, None => true
  | _, _ => false
  end
  && Str.option_eqb (symbolic c) (symbolic d).

End Command.

Module Message.

Record t : Type := mk {
  command : Command.t;
  params : list (option string);
  prefix : Prefix.t;
  raw : string;
  orig : string;
  channel : option string
}.

(** [filter(None, params)]: the params that are neither [None] nor empty. *)
Fixpoint keep_truthy (l : list (option string)) : list string :=
  match l with
  | [] => []
  | Some s :: l' =>
      if Str.nonempty s then s :: keep_truthy l' else keep_truthy l'
  | None :: l' => keep_truthy l'
  end.

(** The trailing parameter as [__init__] writes it: dropped when falsy,
    colon-prefixed when it starts with a colon or holds a space. *)
Definition trailing (last : option string) : list string :=
  match last with
  | Some (String a rest as s) =>
      if Ascii.eqb a Str.colon || Str.contains Str.space s
      then [String Str.colon s] else [s]
  | _ => []
  end.

Definition needs_channel (c : Command.t) : bool :=
  match Command.symbolic c with
  | Some s => (s =? "PRIVMSG") || (s =? "NOTICE") || (s =? "JOIN")
  | None => false
  end.

(** The list [builder] of [__init__] *)
Definition builder (prefix : Prefix.t) (command : Command.t)
    (params : list (option string)) : list string :=
  match params with
  | [] => [Prefix.raw prefix; Command.raw command]
  | _ =>
      [Prefix.raw prefix; Command.raw command]
        ++ keep_truthy (removelast params)
        ++ trailing (last params None)
  end.

(** [Message.__init__] *)
Definition init (command : Command.t) (params : list (option string))
    (prefix : option Prefix.t) (orig : option string) : result t :=
  let prefix := match prefix with None => Prefix.empty | Some p => p end in
  let raw := Str.join (filter Str.nonempty (builder prefix command params)) in
  let orig := match orig with None => raw | Some o => o end in
  channel <-
    (if needs_channel command then
       match params with
       | p :: _ => Ok p
       | [] => Raise IndexError
       end
     else Ok None) ;;
  Ok (mk command params prefix raw orig channel).

(** The [for i in range(14)] loop of [from_raw]; [end_] is the list
    [end], [params] the parameters read so far. *)
Fixpoint read_params (fuel : nat) (end_ : list string)
    (params : list string) : result (list string * list string) :=
  match fuel with
  | O => Ok (params, end_)
  | S fuel' =>
      match end_ with
      | [] => Ok (params, end_)
      | raw :: _ =>
          c <- Str.head raw ;;
          if Ascii.eqb c Str.colon then Ok (params ++ [Str.tail raw], [])
          else
            '(param, end') <- Str.unpack_star (Str.re_split_space raw) ;;
            read_params fuel' end' (params ++ [param])
      end
  end.

(** The [if end:] block behind the loop: what is left of the line is the
    last parameter. *)
Definition read_rest (params end_ : list string) : result (list string) :=
  match end_ with
  | [] => Ok params
  | raw :: _ =>
      c <- Str.head raw ;;
      Ok (params ++ [if Ascii.eqb c Str.colon then Str.tail raw else raw])
  end.

Section WithTable.
Context {table : NumericTable}.

(** [Message.from_raw] *)
Definition from_raw (raw : string) : result t :=
  let orig := raw in
  c <- Str.head raw ;;
  '(prefix, raw) <-
    (if Ascii.eqb c Str.colon then
       '(tmpraw, raw) <- Str.unpack2 (Str.re_split_space (Str.tail raw)) ;;
       p <- Prefix.from_raw tmpraw ;;
       Ok (Some p, raw)
     else Ok (None, raw)) ;;
  '(tmpraw, end_) <- Str.unpack_star (Str.re_split_space raw) ;;
  let command := Command.init tmpraw in
  '(params, end_) <- read_params 14 end_ [] ;;
  params <- read_rest params end_ ;;
  init command (map Some params) prefix (Some orig).

(** [Message.build], the prefix given as a [Prefix] or not at all *)
Definition build (cmd : string) (params : list (option string))
    (prefix : option Prefix.t) : result t :=
  init (Command.init cmd) params prefix None.

(** [Message.build] with the prefix given as a [str] *)
Definition build_str (cmd : string) (params : list (option string))
    (prefix : string) : result t :=
  p <- Prefix.from_raw prefix ;;
  init (Command.init cmd) params (Some p) None.

End WithTable.

(** [tuple.__eq__] on the params *)
Fixpoint params_eqb (a b : list (option string)) : bool :=
  match a, b with
  | [], [] => true
  | x :: a', y :: b' => Str.option_eqb x y && params_eqb a' b'
  | _, _ => false
  end.

(** [Message.__eq__] against another [Message] *)
Definition eq (m o : t) : bool :=
  Prefix.eq (prefix m) (prefix o) && params_eqb (params m) (params o).

End Message.

(** A small numeric table for the worked examples. *)
Definition demo_table : NumericTable := {|
  NUMERIC_TO_SYMBOLIC := fun n =>
    if (n =? 1)%Z then Some "RPL_WELCOME"
    else if (n =? 4)%Z then Some "RPL_MYINFO" else None;
  SYMBOLIC_TO_NUMERIC := fun s =>
    if s =? "RPL_WELCOME" then Some 1%Z
    else if s =? "RPL_MYINFO" then Some 4%Z else None
|}.

(** ** Logging *)

Inductive level : Type := DEBUG | INFO | WARNING | ERROR.

(** A log record keeps the level and the message. The messages of
    [event_handler.py] are f-strings over [repr] of a name: they are kept
    as the format with its argument. *)
Inductive log_text : Type :=
| Plain (text : string)
| ModuleError (module_name : string)
| HookDiscarded (hook_name : string)
| HookLoaded (hook_name : string).

Definition log_record : Type := (level * log_text)%type.

(** ** server.py: the configuration and state of a [Server] *)

(** The owner identities: [None] by default, a [str] by the annotation of
    the constructor, a [set] of strings as [bot.py] passes them. *)
Inductive owners : Type :=
| OwnNone
| OwnStr (s : string)
| OwnSet (l : list string).

(** [_port] is an [int], or the [str] the authority setter leaves behind
    when its conversion raises. *)
Inductive port_val : Type :=
| PortInt (n : Z)
| PortStr (s : string).

Module Server.

Record t : Type := mk {
  _pre_nick : string;
  _nick : option string;
  _username : string;
  _realname : string;
  _host : string;
  _port : port_val;
  _ssl : bool;
  _autoconnect : bool;
  (** [None] stands for Python's [None] *)
  _connected : option bool;
  _disconnected : bool;
  _online : bool;
  (** whether [_socket] holds a socket *)
  _socket : bool;
  _owner_name : owners;
  _owner_user : owners;
  _owner_host : owners
}.

(** [Server.__init__] *)
Definition init (nick host : string) (port : Z) (username realname : string)
    (ssl autoconnect : bool) (owner_name owner_user owner_host : owners) : t :=
  mk nick None username realname host (PortInt port) ssl autoconnect
     (Some false) false false false owner_name owner_user owner_host.

(** What a method leaves behind: the state, the records it logged, and
    the exception it raised, if any. *)
Record outcome : Type := mkOutcome {
  state : t;
  logged : list log_record;
  raised : option exn
}.

Definition done (s : t) : outcome := mkOutcome s [] None.

(** Sequencing of two methods; an exception stops the sequence. *)
Definition andThen (o : outcome) (k : t -> outcome) : outcome :=
  match raised o with
  | Some _ => o
  | None =>
      let o' := k (state o) in
      mkOutcome (state o') (logged o ++ logged o') (raised o')
  end.

(** [if self._connected:] *)
Definition is_connected (s : t) : bool :=
  match _connected s with Some b => b | None => false end.

(** The [nick] property: the guard is [self._connected is None]. *)
Definition nick (s : t) : option string :=
  match _connected s with
  | None => _nick s
  | Some _ => Some (_pre_nick s)
  end.

Definition host (s : t) : string := _host s.
Definition port (s : t) : port_val := _port s.
Definition username (s : t) : string := _username s.
Definition realname (s : t) : string := _realname s.
Definition ssl (s : t) : bool := _ssl s.
Definition owner_name (s : t) : owners := _owner_name s.
Definition owner_user (s : t) : owners := _owner_user s.
Definition owner_host (s : t) : owners := _owner_host s.

(** [f"{x}"] of an [Optional[str]] *)
Definition fmt_opt (o : option string) : string :=
  match o with Some x => x | None => "None" end.

Definition fmt_port (p : port_val) : string :=
  match p with PortInt n => Str.of_Z n | PortStr x => x end.

(** The [authority] property *)
Definition authority (s : t) : string :=
  (fmt_opt (nick s) ++ "@" ++ host s ++ ":" ++ fmt_port (port s))%string.

(** [_debug] and [_warn]: the messages passed below end in no line break,
    so [rstrip] returns them as they are. *)
Definition _debug (msg : string) (s : t) : outcome :=
  mkOutcome s [(DEBUG, Plain (authority s ++ ": " ++ msg)%string)] None.

Definition _warn (msg : string) (s : t) : outcome :=
  mkOutcome s [(WARNING, Plain (authority s ++ ": " ++ msg)%string)] None.

Definition _error (msg : string) (s : t) : outcome :=
  mkOutcome s [(ERROR, Plain (authority s ++ ": " ++ msg)%string)] None.

Definition with_connection (connected : option bool) (disconnected online : bool)
    (nick : option string) (s : t) : t :=
  mk (_pre_nick s) nick (_username s) (_realname s) (_host s) (_port s)
     (_ssl s) (_autoconnect s) connected disconnected online (_socket s)
     (_owner_name s) (_owner_user s) (_owner_host s).

(** [_set_connected(connected, online=..., disconnected=...)]; an absent
    keyword is [None] here and defaults to [False] as [kwargs.get] does. *)
Definition _set_connected (connected : bool) (online disconnected : option bool)
    (s : t) : t :=
  let get (o : option bool) := match o with Some b => b | None => false end in
  let disconnected' := if connected then false else get disconnected in
  let online' := if negb connected then false else get online in
  let nick' :=
    if negb online' then None
    else if negb (Str.truthy (_nick s)) then Some (_pre_nick s)
    else _nick s in
  with_connection (Some connected) disconnected' online' nick' s.

Definition set_field_username (v : string) (s : t) : t :=
  mk (_pre_nick s) (_nick s) v (_realname s) (_host s) (_port s)
     (_ssl s) (_autoconnect s) (_connected s) (_disconnected s) (_online s)
     (_socket s) (_owner_name s) (_owner_user s) (_owner_host s).

Definition set_field_realname (v : string) (s : t) : t :=
  mk (_pre_nick s) (_nick s) (_username s) v (_host s) (_port s)
     (_ssl s) (_autoconnect s) (_connected s) (_disconnected s) (_online s)
     (_socket s) (_owner_name s) (_owner_user s) (_owner_host s).

Definition set_field_host (v : string) (s : t) : t :=
  mk (_pre_nick s) (_nick s) (_username s) (_realname s) v (_port s)
     (_ssl s) (_autoconnect s) (_connected s) (_disconnected s) (_online s)
     (_socket s) (_owner_name s) (_owner_user s) (_owner_host s).

Definition set_field_port (v : port_val) (s : t) : t :=
  mk (_pre_nick s) (_nick s) (_username s) (_realname s) (_host s) v
     (_ssl s) (_autoconnect s) (_connected s) (_disconnected s) (_online s)
     (_socket s) (_owner_name s) (_owner_user s) (_owner_host s).

Definition set_field_ssl (v : bool) (s : t) : t :=
  mk (_pre_nick s) (_nick s) (_username s) (_realname s) (_host s) (_port s)
     v (_autoconnect s) (_connected s) (_disconnected s) (_online s)
     (_socket s) (_owner_name s) (_owner_user s) (_owner_host s).

Definition set_field_autoconnect (v : bool) (s : t) : t :=
  mk (_pre_nick s) (_nick s) (_username s) (_realname s) (_host s) (_port s)
     (_ssl s) v (_connected s) (_disconnected s) (_online s)
     (_socket s) (_owner_name s) (_owner_user s) (_owner_host s).

Definition set_field_pre_nick (v : string) (s : t) : t :=
  mk v (_nick s) (_username s) (_realname s) (_host s) (_port s)
     (_ssl s) (_autoconnect s) (_connected s) (_disconnected s) (_online s)
     (_socket s) (_owner_name s) (_owner_user s) (_owner_host s).

Definition set_field_nick (v : option string) (s : t) : t :=
  with_connection (_connected s) (_disconnected s) (_online s) v s.

Definition set_field_socket (v : bool) (s : t) : t :=
  mk (_pre_nick s) (_nick s) (_username s) (_realname s) (_host s) (_port s)
     (_ssl s) (_autoconnect s) (_connected s) (_disconnected s) (_online s)
     v (_owner_name s) (_owner_user s) (_owner_host s).

(** The [username] setter *)
Definition set_username (username : string) (s : t) : outcome :=
  if is_connected s then _warn "unable to change username while connected" s
  else done (set_field_username username s).

(** The [realname] setter *)
Definition set_realname (realname : string) (s : t) : outcome :=
  if is_connected s then _warn "unable to change realname while connected" s
  else done (set_field_realname realname s).

(** The [host] setter *)
Definition set_host (host : string) (s : t) : outcome :=
  if is_connected s then _warn "unable to change host while connected" s
  else done (set_field_host host s).

(** The [port] setter *)
Definition set_port (port : Z) (s : t) : outcome :=
  if is_connected s then _warn "unable to change port while connected" s
  else done (set_field_port (PortInt port) s).

(** The [ssl] setter *)
Definition set_ssl (ssl : bool) (s : t) : outcome :=
  if is_connected s then _warn "unable to change ssl while connected" s
  else done (set_field_ssl ssl s).

(** The [autoconnect] setter *)
Definition set_autoconnect (autoconnect : bool) (s : t) : outcome :=
  done (set_field_autoconnect autoconnect s).

(** The [connected] setter *)
Definition set_connected (connected : bool) (s : t) : outcome :=
  done (_set_connected connected None None s).

(** The [owner_name], [owner_user] and [owner_host] setters. Each body is
    [self._owner_x = owner_x] while the parameter is called [name],
    [user] or [host]: [owner_x] is neither a local nor a global of the
    module, and looking it up raises before anything is stored. *)
Definition set_owner_name (name : owners) (s : t) : outcome :=
  mkOutcome s [] (Some NameError).

Definition set_owner_user (user : owners) (s : t) : outcome :=
  mkOutcome s [] (Some NameError).

Definition set_owner_host (host : owners) (s : t) : outcome :=
  mkOutcome s [] (Some NameError).

(** How the socket behaves during one [send_raw]: every byte is taken,
    or some [send] reports zero bytes. *)
Inductive wire : Type := Delivered | ZeroSent.

(** [send_raw] *)
Definition send_raw (raw : string) (w : wire) (s : t) : outcome :=
  if is_connected s && _socket s then
    andThen (_debug ("-> " ++ raw)%string s) (fun s =>
      match w with
      | Delivered => done s
      | ZeroSent =>
          andThen (_warn "connection closed" s) (fun s =>
            done (_set_connected false None (Some true) s))
      end)
  else _warn ("[disconnected] -> " ++ raw)%string s.

Section WithTable.
Context {table : NumericTable}.

(** [send_msg] *)
Definition send_msg (cmd : string) (params : list (option string))
    (w : wire) (s : t) : outcome :=
  match Message.build cmd params None with
  | Ok msg => send_raw (Message.raw msg) w s
  | Raise e => mkOutcome s [] (Some e)
  end.

(** [send_nick] *)
Definition send_nick (nick : string) (w : wire) (s : t) : outcome :=
  send_msg "NICK" [Some nick] w s.

(** [send_user] with [mode] a [str] *)
Definition send_user (username mode realname : string) (w : wire)
    (s : t) : outcome :=
  send_msg "USER" [Some username; Some mode; Some "*"; Some realname] w s.

(** [send_quit] *)
Definition send_quit (msg : option string) (w : wire) (s : t) : outcome :=
  andThen (send_msg "QUIT" [msg] w s) (fun s =>
    done (_set_connected false None None s)).

(** The [nick] setter *)
Definition set_nick (nick : string) (w : wire) (s : t) : outcome :=
  if is_connected s then send_nick nick w s
  else done (set_field_pre_nick nick s).

(** The [authority] setter *)
Definition set_authority (authority : string) (s : t) : outcome :=
  if is_connected s then
    _warn "unable to change server settings while connected" s
  else if negb (Str.contains Str.at_sign authority)
          || negb (Str.contains Str.colon authority) then
    _warn "received invalid authority in setter" s
  else
    match Str.split1 Str.at_sign authority with
    | [nick; rest] =>
        let s := set_field_nick (Some nick) s in
        match Str.rsplit1 Str.colon rest with
        | [host; port] =>
            let s := set_field_port (PortStr port) (set_field_host host s) in
            match Str.parse_int port with
            | Some n => done (set_field_port (PortInt n) s)
            | None => mkOutcome s [] (Some ValueError)
            end
        | _ => mkOutcome s [] (Some ValueError)
        end
    | _ => mkOutcome s [] (Some ValueError)
    end.

(** [connect] up to the call of the read loop: [reached] says whether
    the socket connects, [w1] and [w2] how the two registration lines
    are taken. *)
Definition connect (reached : bool) (w1 w2 : wire) (s : t) : outcome :=
  let s := set_field_socket true s in
  if negb reached then
    _error ("unable to connect to " ++ _host s ++ ":" ++ fmt_port (_port s))%string s
  else
    let s := _set_connected true None None s in
    let s := with_connection (Some true) false false (_nick s) s in
    andThen (send_nick (_pre_nick s) w1 s) (fun s =>
      send_user (_username s) "*" (_realname s) w2 s).

(** The read loop on a zero-length read *)
Definition recv_closed (s : t) : outcome :=
  done (set_field_nick None (_set_connected false None (Some true) s)).

(** [connect] when the read loop raises: the handler logs and
    disconnects. *)
Definition loop_error (text : string) (s : t) : outcome :=
  andThen (_error ("disconnected due to unhandled internal error: " ++ text)%string s)
    (fun s => done (_set_connected false None (Some true) s)).

(** The operations that change a [Server] *)
Inductive op : Type :=
| OpSetConnected (connected : bool) (online disconnected : option bool)
| OpConnectedSetter (connected : bool)
| OpSetAuthority (authority : string)
| OpSetNick (nick : string) (w : wire)
| OpSetUsername (v : string)
| OpSetRealname (v : string)
| OpSetHost (v : string)
| OpSetPort (v : Z)
| OpSetSsl (v : bool)
| OpSetAutoconnect (v : bool)
| OpSetOwnerName (v : owners)
| OpSetOwnerUser (v : owners)
| OpSetOwnerHost (v : owners)
| OpSendRaw (raw : string) (w : wire)
| OpSendMsg (cmd : string) (params : list (option string)) (w : wire)
| OpSendQuit (msg : option string) (w : wire)
| OpConnect (reached : bool) (w1 w2 : wire)
| OpRecvClosed
| OpLoopError (text : string).

Definition run (o : op) (s : t) : outcome :=
  match o with
  | OpSetConnected c online disc => done (_set_connected c online disc s)
  | OpConnectedSetter c => set_connected c s
  | OpSetAuthority a => set_authority a s
  | OpSetNick n w => set_nick n w s
  | OpSetUsername v => set_username v s
  | OpSetRealname v => set_realname v s
  | OpSetHost v => set_host v s
  | OpSetPort v => set_port v s
  | OpSetSsl v => set_ssl v s
  | OpSetAutoconnect v => set_autoconnect v s
  | OpSetOwnerName v => set_owner_name v s
  | OpSetOwnerUser v => set_owner_user v s
  | OpSetOwnerHost v => set_owner_host v s
  | OpSendRaw raw w => send_raw raw w s
  | OpSendMsg cmd params w => send_msg cmd params w s
  | OpSendQuit msg w => send_quit msg w s
  | OpConnect reached w1 w2 => connect reached w1 w2 s
  | OpRecvClosed => recv_closed s
  | OpLoopError text => loop_error text s
  end.

(** The states a [Server] can be in: as constructed, or after any
    sequence of operations. *)
Inductive reachable : t -> Prop :=
| reach_init nick host port username realname ssl autoconnect o1 o2 o3 :
    reachable (init nick host port username realname ssl autoconnect o1 o2 o3)
| reach_run o s : reachable s -> reachable (state (run o s)).

End WithTable.

(** The three messages that [from_authority] logs with [logger.error] *)
Inductive authority_error : Type :=
| NickMissing (authority : string)
| PortNotInt (authority : string)
| HostMissing (authority : string).

(** [Server.from_authority]: the server, [None] when the nick is missing,
    or the exception, with the errors logged on the way. When the port is
    missing or no number the local [port] is never bound, and the call of
    the constructor raises [UnboundLocalError], a [NameError]. *)
Definition from_authority (authority : string)
    : result (option t) * list authority_error :=
  if Str.contains Str.at_sign authority then
    match Str.unpack2 (Str.split Str.at_sign authority) with
    | Raise e => (Raise e, [])
    | Ok (nick, host) =>
        if Str.contains Str.colon host then
          match Str.unpack2 (Str.split Str.colon host) with
          | Raise e => (Raise e, [])
          | Ok (host, strport) =>
              if Str.isdigit strport then
                (Ok (Some (init nick host (Str.int strport) "bot" EmptyString
                             false true OwnNone OwnNone OwnNone)), [])
              else (Raise NameError, [PortNotInt authority])
          end
        else (Raise NameError, [HostMissing authority])
    end
  else (Ok None, [NickMissing authority]).

End Server.

(** ** hook.py *)

(** The two matchers of the Python standard library that [Hook.process]
    calls: [fnmatchcase(name, pat)] on two strings, and [re.match], which
    first compiles its pattern, raising when it is ill-formed, and then
    matches at the start of the string. *)
Class Matchers : Type := {
  fnmatch : string -> string -> bool;
  re_compile : string -> result (string -> bool)
}.

(** The values a hook declaration holds: a string, an integer or [None],
    a boolean flag, or a tuple, list or set of the former. *)
Inductive atom : Type :=
| AStr (s : string)
| AInt (n : Z)
| ANone.

Inductive pyval : Type :=
| VAtom (a : atom)
| VBool (b : bool)
| VColl (l : list atom).

Definition atom_eqb (a b : atom) : bool :=
  match a, b with
  | AStr x, AStr y => x =? y
  | AInt x, AInt y => (x =? y)%Z
  | ANone, ANone => true
  | _, _ => false
  end.

(** Insertion-ordered dictionaries with string keys *)
Module Dict.

Definition t (V : Type) : Type := list (string * V).

(** [d[k] = v]: an existing key keeps its place. *)
Fixpoint set {V : Type} (k : string) (v : V) (d : t V) : t V :=
  match d with
  | [] => [(k, v)]
  | (k', v') :: d' =>
      if k' =? k then (k, v) :: d' else (k', v') :: set k v d'
  end.

(** [d.get(k)] *)
Fixpoint get {V : Type} (k : string) (d : t V) : option V :=
  match d with
  | [] => None
  | (k', v) :: d' => if k' =? k then Some v else get k d'
  end.

(** [k in d] *)
Definition mem {V : Type} (k : string) (d : t V) : bool :=
  match get k d with Some _ => true | None => false end.

(** [del d[k]] *)
Fixpoint del {V : Type} (k : string) (d : t V) : t V :=
  match d with
  | [] => []
  | (k', v) :: d' => if k' =? k then d' else (k', v) :: del k d'
  end.

End Dict.

Inductive match_ty : Type := TyStr | TyInt.

(** The literal [HANDLED_MATCHES] *)
Definition BASE_MATCHES : Dict.t match_ty :=
  [ ("raw", TyStr); ("command", TyStr); ("numeric", TyInt);
    ("symbolic", TyStr); ("message_command", TyStr); ("message", TyStr);
    ("message_len", TyInt); ("message_len_min", TyInt);
    ("message_len_max", TyInt); ("prefix", TyStr); ("nick", TyStr);
    ("user", TyStr); ("host", TyStr); ("serverhost", TyStr);
    ("servername", TyStr); ("serveruri", TyStr) ].

(** One turn of the module-level loop that extends [HANDLED_MATCHES] *)
Definition extend_matches (d : Dict.t match_ty) (entry : string * match_ty)
    : Dict.t match_ty :=
  let '(match_name, match_type) := entry in
  let d := Dict.set match_name match_type d in
  let d :=
    match match_type with
    | TyStr =>
        Dict.set (match_name ++ "_regex")%string TyStr
          (Dict.set (match_name ++ "_glob")%string TyStr d)
    | TyInt => d
    end in
  Dict.set (match_name ++ "_iter")%string match_type d.

(** [HANDLED_MATCHES] once [hook.py] is imported *)
Definition HANDLED_MATCHES : Dict.t match_ty :=
  Eval vm_compute in fold_left extend_matches BASE_MATCHES BASE_MATCHES.

(** The function a hook is made of: [vars(callback)], in insertion order *)
Definition callback : Type := Dict.t pyval.

Module Hook.

Record matches : Type := mkMatches {
  other : Dict.t (list atom);
  equal : Dict.t (list atom);
  glob : Dict.t (list atom);
  regex : Dict.t (list atom);
  int_ : Dict.t (list Z)
}.

Record t : Type := mk {
  _name : string;
  _callback : callback;
  _thread_callback : bool;
  _check_owner_nick : option bool;
  _check_owner_user : option bool;
  _check_owner_host : option bool;
  _matches : matches
}.

(** [bool(v)] *)
Definition truth (v : pyval) : bool :=
  match v with
  | VAtom (AStr s) => Str.nonempty s
  | VAtom (AInt n) => negb (n =? 0)%Z
  | VAtom ANone => false
  | VBool b => b
  | VColl l => match l with [] => false | _ => true end
  end.

(** [str(v)] for a value that is no collection *)
Definition to_str (v : pyval) : string :=
  match v with
  | VAtom (AStr s) => s
  | VAtom (AInt n) => Str.of_Z n
  | VAtom ANone => "None"
  | VBool true => "True"
  | VBool false => "False"
  | VColl _ => EmptyString
  end.

(** [(lambda v: bool(v) if v is not None else v)(getattr(cb, attr, default))] *)
Definition tri_state (cb : callback) (attr : string) (default : option bool)
    : option bool :=
  match Dict.get attr cb with
  | Some (VAtom ANone) => None
  | Some v => Some (truth v)
  | None => default
  end.

(** [set(l)]: the elements once each *)
Fixpoint to_set (l : list atom) : list atom :=
  match l with
  | [] => []
  | a :: l' => if existsb (atom_eqb a) l' then to_set l' else a :: to_set l'
  end.

(** [set(int(m) for m in match if isinstance(m, int) or
    isinstance(m, str) and m.isdigit())] *)
Fixpoint to_int_set (l : list atom) : list Z :=
  match l with
  | [] => []
  | a :: l' =>
      let rest := to_int_set l' in
      let add (n : Z) := if existsb (Z.eqb n) rest then rest else n :: rest in
      match a with
      | AInt n => add n
      | AStr s => if Str.isdigit s then add (Str.int s) else rest
      | ANone => rest
      end
  end.

(** One turn of the loop over [vars(callback)] in [__init__] *)
Definition declare (m : matches) (entry : string * pyval) : matches :=
  let '(attr_name, v) := entry in
  let match_ :=
    match v with
    | VColl l => to_set l
    | _ => [AStr (to_str v)]
    end in
  match Dict.get attr_name HANDLED_MATCHES with
  | None =>
      mkMatches (Dict.set attr_name match_ (other m))
                (equal m) (glob m) (regex m) (int_ m)
  | Some TyStr =>
      if Str.endswith attr_name "_glob" then
        mkMatches (other m) (equal m)
                  (Dict.set (Str.drop_last 5 attr_name) match_ (glob m))
                  (regex m) (int_ m)
      else if Str.endswith attr_name "_regex" then
        mkMatches (other m) (equal m) (glob m)
                  (Dict.set (Str.drop_last 6 attr_name) match_ (regex m))
                  (int_ m)
      else
        mkMatches (other m) (Dict.set attr_name match_ (equal m))
                  (glob m) (regex m) (int_ m)
  | Some TyInt =>
      mkMatches (other m) (equal m) (glob m) (regex m)
                (Dict.set attr_name (to_int_set match_) (int_ m))
  end.

(** [Hook.__init__] *)
Definition init (name : string) (cb : callback) : t :=
  let thread :=
    match Dict.get "thread" cb with Some v => truth v | None => true end in
  let check_owner := tri_state cb "is_owner" None in
  mk name cb thread
     (tri_state cb "is_owner_nick" check_owner)
     (tri_state cb "is_owner_user" check_owner)
     (tri_state cb "is_owner_host" check_owner)
     (fold_left declare cb (mkMatches [] [] [] [] [])).

(** The [match_count] property: [sum(len(v) for v in self._matches.values())] *)
Definition match_count (h : t) : nat :=
  let m := _matches h in
  length (other m) + length (equal m) + length (glob m)
  + length (regex m) + length (int_ m).

Definition name (h : t) : string := _name h.

(** What the table of live values holds: [None], a string, an integer, or
    the bound method [server.uri], which the table stores uncalled. *)
Inductive live : Type :=
| LNone
| LStr (s : string)
| LInt (n : Z)
| LMethod.

Definition live_opt (o : option string) : live :=
  match o with Some s => LStr s | None => LNone end.

(** The dictionary literal of [process], looked up with [.get(match_name)] *)
Definition live_msg (server : Server.t) (msg : Message.t)
    (usr_msg usr_msg_cmd : string) (match_name : string) : live :=
  let table : Dict.t live :=
    [ ("raw", LStr (Command.raw (Message.command msg)));
      ("command", LStr (Command.orig (Message.command msg)));
      ("numeric", match Command.numeric (Message.command msg) with
                  | Some n => LInt n | None => LNone end);
      ("symbolic", live_opt (Command.symbolic (Message.command msg)));
      ("message_command", LStr usr_msg_cmd);
      ("message", LStr usr_msg);
      ("prefix", LStr (Prefix.raw (Message.prefix msg)));
      ("nick", live_opt (Prefix.name (Message.prefix msg)));
      ("user", live_opt (Prefix.user (Message.prefix msg)));
      ("host", live_opt (Prefix.host (Message.prefix msg)));
      ("serverhost", LStr (Server.host server));
      ("servername", LStr (Server.authority server));
      ("serveruri", LMethod) ] in
  match Dict.get match_name table with Some v => v | None => LNone end.

(** [live_msg in match_msg] *)
Definition live_in (v : live) (match_msg : list atom) : bool :=
  match v with
  | LNone => existsb (atom_eqb ANone) match_msg
  | LStr s => existsb (atom_eqb (AStr s)) match_msg
  | LInt n => existsb (atom_eqb (AInt n)) match_msg
  | LMethod => false
  end.

(** A loop whose body either goes on ([Ok true]), leaves [process] with
    [return] ([Ok false]) or raises. *)
Fixpoint for_all {A : Type} (body : A -> result bool) (l : list A)
    : result bool :=
  match l with
  | [] => Ok true
  | x :: l' => go_on <- body x ;; if go_on then for_all body l' else Ok false
  end.

(** [x in owner]: a set is searched, a string is searched for a
    substring, [None] is not a container. *)
Definition owner_in (x : option string) (owner : owners) : result bool :=
  match owner with
  | OwnNone => Raise TypeError
  | OwnStr s =>
      match x with
      | Some v => Ok (Str.is_substring v s)
      | None => Raise TypeError
      end
  | OwnSet l =>
      match x with
      | Some v => Ok (existsb (String.eqb v) l)
      | None => Ok false
      end
  end.

Inductive dispatch : Type :=
| Skipped
| Invoked (on_thread : bool).

Section WithMatchers.
Context {matchers : Matchers}.

Definition glob_one (v : live) (mm : atom) : result bool :=
  match mm, v with
  | AStr pat, LStr s => Ok (fnmatch s pat)
  | _, _ => Raise TypeError
  end.

Definition regex_one (v : live) (mm : atom) : result bool :=
  match mm with
  | AStr pat =>
      matcher <- re_compile pat ;;
      match v with
      | LStr s => Ok (matcher s)
      | _ => Raise TypeError
      end
  | _ => Raise TypeError
  end.

Definition int_one (v : live) (mm : Z) : result bool :=
  match v with
  | LStr s => Ok (if Str.isdigit s then (Str.int s =? mm)%Z else false)
  | _ => Raise AttributeError
  end.

(** The two nested loops of [process] over [self._matches] *)
Definition check_matches (h : t) (look : string -> live) : result bool :=
  let m := _matches h in
  ok <- for_all (fun _ : string * list atom => Ok true) (other m) ;;
  if negb ok then Ok false else
  ok <- for_all (fun e => Ok (live_in (look (fst e)) (snd e))) (equal m) ;;
  if negb ok then Ok false else
  ok <- for_all (fun e => for_all (glob_one (look (fst e))) (snd e)) (glob m) ;;
  if negb ok then Ok false else
  ok <- for_all (fun e => for_all (regex_one (look (fst e))) (snd e)) (regex m) ;;
  if negb ok then Ok false else
  for_all (fun e => for_all (int_one (look (fst e))) (snd e)) (int_ m).

(** The owner check on the nick: its comparison reads [lf], a name that
    is bound nowhere, after the membership test. *)
Definition check_owner_nick (h : t) (server : Server.t) (msg : Message.t)
    : result bool :=
  match _check_owner_nick h with
  | None => Ok true
  | Some _ =>
      _ <- owner_in (Prefix.name (Message.prefix msg)) (Server.owner_name server) ;;
      Raise NameError
  end.

Definition check_owner_user (h : t) (server : Server.t) (msg : Message.t)
    : result bool :=
  match _check_owner_user h with
  | None => Ok true
  | Some want =>
      found <- owner_in (Prefix.user (Message.prefix msg)) (Server.owner_user server) ;;
      Ok (Bool.eqb found want)
  end.

Definition check_owner_host (h : t) (server : Server.t) (msg : Message.t)
    : result bool :=
  match _check_owner_host h with
  | None => Ok true
  | Some want =>
      found <- owner_in (Prefix.host (Message.prefix msg)) (Server.owner_host server) ;;
      Ok (Bool.eqb found want)
  end.

(** [Hook.process] *)
Definition process (h : t) (server : Server.t) (msg : Message.t)
    (usr_msg usr_msg_cmd : string) : result dispatch :=
  ok <- check_matches h (live_msg server msg usr_msg usr_msg_cmd) ;;
  if negb ok then Ok Skipped else
  ok <- check_owner_nick h server msg ;;
  if negb ok then Ok Skipped else
  ok <- check_owner_user h server msg ;;
  if negb ok then Ok Skipped else
  ok <- check_owner_host h server msg ;;
  if negb ok then Ok Skipped else
  Ok (Invoked (_thread_callback h)).

End WithMatchers.

End Hook.

(** ** event_handler.py *)

(** What [load_hooks] finds on disk, once resolved: the [*.py] files of each
    directory, and for each file what executing it gives. *)
Inductive member : Type :=
| Other
| Function (module_ : string) (cb : callback).

Record module_ns : Type := mkNs {
  (** truth of [getattr(module, "__no_load__", False)] *)
  no_load : bool;
  (** what a function [init] of the module raises when called, if it does *)
  init_raises : option exn;
  (** [dir(module)] with the value of each attribute *)
  members : Dict.t member
}.

Inductive executed : Type :=
| ExecError
| Executed (ns : module_ns).

Record module_file : Type := mkFile {
  stem : string;
  exec : executed
}.

Record hook_dir : Type := mkDir {
  path : string;
  (** [None] when the path is no directory *)
  listing : option (list module_file)
}.

Module EventHandler.

Record t : Type := mk {
  _hook_dirs : list string;
  _hooks : Dict.t Hook.t
}.

(** The locals of [load_hooks] while it runs *)
Record loading : Type := mkLoading {
  hooks : Dict.t Hook.t;
  errors : nat;
  log : list log_record
}.

(** The body of the loop over [dir(module)] *)
Definition load_member (module_name : string) (st : loading)
    (entry : string * member) : loading :=
  let '(attr, func) := entry in
  if Str.startswith attr "__" || (attr =? "init") then st
  else match func with
  | Other => st
  | Function func_module cb =>
      if negb (func_module =? module_name) then st
      else
        let hook := Hook.init (module_name ++ "*" ++ attr)%string cb in
        if (Hook.match_count hook =? 0)%nat then
          mkLoading (hooks st) (S (errors st))
            (log st ++ [(WARNING, HookDiscarded (Hook.name hook))])
        else
          mkLoading (Dict.set (Hook.name hook) hook (hooks st)) (errors st)
            (log st ++ [(DEBUG, HookLoaded (Hook.name hook))])
  end.

(** The body of the loop over the files of a directory; the exception,
    if any, is the one [module.init()] lets through. *)
Definition load_module (st : loading) (f : module_file)
    : loading * option exn :=
  if Str.startswith (stem f) "__" then (st, None)
  else match exec f with
  | ExecError =>
      (mkLoading (hooks st) (S (errors st))
         (log st ++ [(ERROR, ModuleError (stem f))]), None)
  | Executed ns =>
      if no_load ns then (st, None)
      else match init_raises ns with
      | Some e => (st, Some e)
      | None => (fold_left (load_member (stem f)) (members ns) st, None)
      end
  end.

(** A loop that an exception leaves *)
Fixpoint each {A : Type} (body : loading -> A -> loading * option exn)
    (l : list A) (st : loading) : loading * option exn :=
  match l with
  | [] => (st, None)
  | x :: l' =>
      match body st x with
      | (st', None) => each body l' st'
      | stopped => stopped
      end
  end.

Definition is_dir (d : hook_dir) : bool :=
  match listing d with Some _ => true | None => false end.

Definition files (d : hook_dir) : list module_file :=
  match listing d with Some l => l | None => [] end.

Record loaded : Type := mkLoaded {
  handler : t;
  returned : result nat;
  records : list log_record
}.

(** [load_hooks]: [dirs] is the view of [hook_dirs] on disk. *)
Definition load_hooks (dirs : list hook_dir) : loaded :=
  let kept := filter is_dir dirs in
  let '(st, stopped) :=
    each (fun st d => each load_module (files d) st) kept
         (mkLoading [] 0 []) in
  mkLoaded (mk (map path kept) (hooks st))
    (match stopped with None => Ok (errors st) | Some e => Raise e end)
    (log st).

(** [rm_hook] *)
Definition rm_hook (hook_name : string) (h : t) : t * bool :=
  if Dict.mem hook_name (_hooks h)
  then (mk (_hook_dirs h) (Dict.del hook_name (_hooks h)), true)
  else (h, false).

(** What a dispatch leaves behind: the hooks whose callback was invoked,
    each with its concurrency flag, and the exception that ended it. *)
Record trace : Type := mkTrace {
  invoked : list (string * bool);
  raised : option exn
}.

Section WithMatchers.
Context {matchers : Matchers}.

Fixpoint run_hooks (hs : Dict.t Hook.t) (server : Server.t)
    (msg : Message.t) (usr_msg usr_msg_cmd : string) : trace :=
  match hs with
  | [] => mkTrace [] None
  | (hook_name, hook) :: hs' =>
      match Hook.process hook server msg usr_msg usr_msg_cmd with
      | Raise e => mkTrace [] (Some e)
      | Ok Hook.Skipped => run_hooks hs' server msg usr_msg usr_msg_cmd
      | Ok (Hook.Invoked on_thread) =>
          let rest := run_hooks hs' server msg usr_msg usr_msg_cmd in
          mkTrace ((hook_name, on_thread) :: invoked rest) (raised rest)
      end
  end.

(** [EventHandler.process] *)
Definition process (h : t) (server : Server.t) (msg : Message.t) : trace :=
  if Str.option_eqb (Command.symbolic (Message.command msg)) (Some "NOTICE")
  then mkTrace [] None
  else match Message.params msg with
  | [] => mkTrace [] (Some IndexError)
  | p :: ps =>
      match last ps p with
      | None => mkTrace [] (Some AttributeError)
      | Some usr_msg =>
          match Str.split_ws usr_msg with
          | [] => mkTrace [] (Some IndexError)
          | usr_msg_cmd :: _ =>
              run_hooks (_hooks h) server msg usr_msg usr_msg_cmd
          end
      end
  end.

End WithMatchers.

End EventHandler.

(** ** Instances for the worked examples *)

(** [fnmatchcase] on patterns without bracket expressions: [*] matches any
    run of characters, [?] any one character, the rest itself. *)
Fixpoint glob_match (pat : string) (s : string) : bool :=
  match pat with
  | EmptyString => negb (Str.nonempty s)
  | String p pat' =>
      if Ascii.eqb p "*"%char then
        (fix star (s : string) : bool :=
           glob_match pat' s
           || match s with
              | EmptyString => false
              | String _ s' => star s'
              end) s
      else match s with
      | EmptyString => false
      | String c s' =>
          (Ascii.eqb p "?"%char || Ascii.eqb p c) && glob_match pat' s'
      end
  end.

(** The example matchers: the globs above, and regular expressions made
    of literal characters only, matched at the start of the string. *)
Definition demo_matchers : Matchers := {|
  fnmatch := fun name pat => glob_match pat name;
  re_compile := fun pat => Ok (fun s => String.prefix pat s)
|}.

Definition demo_server : Server.t :=
  Server.init "core2bot1" "irc.libera.chat" 6667 "bot" "core 2 duo" false true
    OwnNone OwnNone (OwnSet ["user/nova"; "gateway/tor-sasl/nova"]).

(** A server that is connected and online, with a negotiated nick that
    differs from the configured one. *)
Definition online_server : Server.t :=
  Server.state (Server.run (table := demo_table)
    (Server.OpSetConnected true (Some true) None)
    (Server.state (Server.run (table := demo_table)
      (Server.OpSetAuthority "alt@irc.libera.chat:6697") demo_server))).

Definition notice_msg : Message.t :=
  Message.mk (Command.init (table := demo_table) "NOTICE")
    [Some "#core2"; Some "!ping"]
    (Prefix.init (Some "nova") (Some "~n") (Some "user/nova") None)
    ":nova!~n@user/nova NOTICE #core2 !ping"
    ":nova!~n@user/nova NOTICE #core2 !ping"
    (Some "#core2").

Definition ping_hook : Hook.t :=
  Hook.init "utils*ping"
    [("command", VAtom (AStr "NOTICE")); ("message_command", VAtom (AStr "!ping"))].

Definition demo_handler : EventHandler.t :=
  EventHandler.mk ["plugins"] [("utils*ping", ping_hook)].

(** A server whose three owner sets are given, and a message of its owner. *)
Definition owned_server : Server.t :=
  Server.init "core2bot1" "irc.libera.chat" 6667 "bot" "core 2 duo" false true
    (OwnSet ["nova"]) (OwnSet ["~n"]) (OwnSet ["user/nova"]).

Definition reload_msg : Message.t :=
  Message.mk (Command.init (table := demo_table) "PRIVMSG")
    [Some "#core2"; Some "!reload"]
    (Prefix.init (Some "nova") (Some "~n") (Some "user/nova") None)
    ":nova!~n@user/nova PRIVMSG #core2 !reload"
    ":nova!~n@user/nova PRIVMSG #core2 !reload"
    (Some "#core2").

Definition reload_decl : callback :=
  [("command", VAtom (AStr "PRIVMSG"));
   ("message_command", VAtom (AStr "!reload"))].

(** The same declaration, restricted to the owner by host, by user, by
    nick, and by all three with [is_owner]. *)
Definition reload_by_host : Hook.t :=
  Hook.init "utils*reload" (reload_decl ++ [("is_owner_host", VBool true)]).

Definition reload_by_user : Hook.t :=
  Hook.init "utils*reload" (reload_decl ++ [("is_owner_user", VBool true)]).

Definition reload_by_nick : Hook.t :=
  Hook.init "utils*reload" (reload_decl ++ [("is_owner_nick", VBool true)]).

Definition reload_by_owner : Hook.t :=
  Hook.init "utils*reload" (reload_decl ++ [("is_owner", VBool true)]).

(** The welcome reply, and hooks declaring a numeric-typed criterion. *)
Definition welcome_msg : Message.t :=
  Message.mk (Command.init (table := demo_table) "001")
    [Some "core2bot1"; Some "Welcome to IRC"]
    (Prefix.init (Some "irc.libera.chat") None None None)
    ":irc.libera.chat 001 core2bot1 :Welcome to IRC"
    ":irc.libera.chat 001 core2bot1 :Welcome to IRC"
    None.

Definition on_welcome : Hook.t :=
  Hook.init "useful*welcome" [("numeric", VAtom (AInt 1))].

Definition on_three_words : Hook.t :=
  Hook.init "useful*three" [("message_len", VAtom (AStr "3"))].

(** ** Well-formed messages

    The lines that [Message.__init__] writes and [Message.from_raw] reads
    back to the same parameters and prefix. *)

Definition starts_with_colon (s : string) : bool :=
  match s with
  | String a _ => Ascii.eqb a Str.colon
  | EmptyString => false
  end.

(** A word: not empty, no space. *)
Definition token (s : string) : bool :=
  Str.nonempty s && negb (Str.contains Str.space s).

(** A middle parameter, or the command text: a word with no leading colon. *)
Definition middle (s : string) : bool :=
  token s && negb (starts_with_colon s).

(** A part of a prefix: a word with neither [!] nor [@]. *)
Definition ident (s : string) : bool :=
  token s && negb (Str.contains Str.bang s) && negb (Str.contains Str.at_sign s).

Definition opt_ident (o : option string) : bool :=
  match o with Some s => ident s | None => true end.

(** A prefix as [Prefix.__init__] builds it, that is either empty or has a
    name, its parts being well-formed. *)
Definition wf_prefix (p : Prefix.t) : bool :=
  (Prefix.raw p
   =? Prefix.raw (Prefix.init (Prefix.name p) (Prefix.user p) (Prefix.host p) None))
  && match Prefix.name p with
     | Some n => ident n && opt_ident (Prefix.user p) && opt_ident (Prefix.host p)
     | None =>
         match Prefix.user p, Prefix.host p with
         | None, None => true
         | _, _ => false
         end
     end.

Definition wf_prefix_opt (o : option Prefix.t) : bool :=
  match o with Some p => wf_prefix p | None => true end.

(** At most fifteen parameters, none empty, all but the last being middle
    parameters. *)
Definition wf_params (ps : list string) : bool :=
  (length ps <=? 15)%nat
  && match ps with
     | [] => true
     | _ => forallb middle (removelast ps) && Str.nonempty (last ps EmptyString)
     end.

(** The last parameter as it is written on the line *)
Definition trailing_text (l : string) : string :=
  if starts_with_colon l || Str.contains Str.space l then String Str.colon l else l.

(** The parameters as they are written on the line *)
Definition written_params (ps : list string) : list string :=
  match ps with
  | [] => []
  | _ => removelast ps ++ [trailing_text (last ps EmptyString)]
  end.

(** A string that does not begin with a space *)
Definition no_leading_space (s : string) : Prop :=
  Str.lstrip_spaces s = s.

(** The text of a well-formed prefix with a name, behind its colon. *)
Definition prefix_text (p : Prefix.t) : string :=
  Str.tail (Prefix.raw p).

Section ReadBody.
Context {table : NumericTable}.

(** [from_raw] behind the prefix: the command, the loop, the block behind
    the loop and the constructor. *)
Definition read_body (raw : string) (prefix : option Prefix.t) (orig : string)
    : result Message.t :=
  '(tmpraw, end_) <- Str.unpack_star (Str.re_split_space raw) ;;
  '(params, end_) <- Message.read_params 14 end_ [] ;;
  params <- Message.read_rest params end_ ;;
  Message.init (Command.init tmpraw) (map Some params) prefix (Some orig).

End ReadBody.

(** What a guarded setter answers on a connected server: the state as it
    was and one warning. *)
Definition refusal (s : Server.t) (field : string) : Server.outcome :=
  Server.mkOutcome s
    [(WARNING,
      Plain (Server.authority s ++ ": unable to change " ++ field
             ++ " while connected")%string)]
    None.


(** The message of the test [test_rfc_commands], built and not parsed. *)
Definition join_prefix : Prefix.t :=
  Prefix.init (Some "somenick") (Some "~someuser") (Some "some.host.com") None.

Definition join_cmd : Command.t := Command.init (table := demo_table) "JOIN".

Definition join_msg : Message.t :=
  Message.mk join_cmd [Some "##core2"] join_prefix
    ":somenick!~someuser@some.host.com JOIN ##core2"
    ":somenick!~someuser@some.host.com JOIN ##core2"
    (Some "##core2").

(** A message whose last parameter is blank. *)
Definition blank_msg : Message.t :=
  Message.mk (Command.init (table := demo_table) "PRIVMSG")
    [Some "#core2"; Some "   "]
    (Prefix.init (Some "nova") (Some "~n") (Some "user/nova") None)
    ":nova!~n@user/nova PRIVMSG #core2 :   "
    ":nova!~n@user/nova PRIVMSG #core2 :   "
    (Some "#core2").

(** A hook on two glob patterns over the nick, and a message whose nick
    matches the first pattern only. *)
Definition op_hook : Hook.t :=
  Hook.init "useful*op" [("nick_glob", VColl [AStr "op_*"; AStr "admin"])].

Definition op_msg : Message.t :=
  Message.mk (Command.init (table := demo_table) "PRIVMSG")
    [Some "#core2"; Some "!ping"]
    (Prefix.init (Some "op_bob") (Some "~b") (Some "user/bob") None)
    ":op_bob!~b@user/bob PRIVMSG #core2 !ping"
    ":op_bob!~b@user/bob PRIVMSG #core2 !ping"
    (Some "#core2").

(** The flag [_connected] holds a boolean: it is never [None]. *)
Definition flagged (s : Server.t) : Prop :=
  exists b, Server._connected s = Some b.

(** ** Invariants of the server state *)

(** The three flags agree: an online server is connected and has a nick,
    a server flagged as disconnected is not connected. *)
Definition coherent (s : Server.t) : Prop :=
  (Server._online s = true -> Server.is_connected s = true)
  /\ (Server._disconnected s = true -> Server.is_connected s = false)
  /\ (Server._online s = true -> exists n, Server._nick s = Some n).

(** [_debug], [_warn] and [_error] strip the carriage returns and line
    feeds that end a text before they log it. The records above hold the
    text as it is passed, so that a statement on the text of a record is
    made for texts that do not end in a line break. *)
Fixpoint ends_in_line_break (s : string) : bool :=
  match s with
  | EmptyString => false
  | String c EmptyString => Ascii.eqb c "010"%char || Ascii.eqb c "013"%char
  | String _ s' => ends_in_line_break s'
  end.

(** ** server.py: the read loop *)

Section ReadLoop.
Context {table : NumericTable} {matchers : Matchers}.

(** [send_pong] *)
Definition send_pong (target target2 : option string) (w : Server.wire)
    (s : Server.t) : Server.outcome :=
  Server.send_msg "PONG" [target; target2] w s.

(** The body of the loop over the lines in [_connect], on a server whose
    event handler is [eh]: the line is parsed and logged, a PING is
    answered with its first parameter, and the message is dispatched. An
    exception leaves the body. What the callbacks do to the server is
    theirs and is not part of the body. *)
Definition handle_line (eh : EventHandler.t) (line : string)
    (w : Server.wire) (s : Server.t) : Server.outcome * EventHandler.trace :=
  match Message.from_raw line with
  | Raise e => (Server.mkOutcome s [] (Some e), EventHandler.mkTrace [] None)
  | Ok msg =>
      let o := Server._debug ("<- " ++ line)%string s in
      let o :=
        if Command.eq_str (Message.command msg) "PING" then
          Server.andThen o (fun s =>
            match Message.params msg with
            | target :: _ => send_pong target None w s
            | [] => Server.mkOutcome s [] (Some IndexError)
            end)
        else o in
      match Server.raised o with
      | Some _ => (o, EventHandler.mkTrace [] None)
      | None =>
          let t := EventHandler.process eh (Server.state o) msg in
          (Server.mkOutcome (Server.state o) (Server.logged o)
             (EventHandler.raised t), t)
      end
  end.

(** One line through the loop and, when the body raises, through the
    handler of [connect]; [text] is the text of the exception. *)
Definition read_line (eh : EventHandler.t) (line : string) (w : Server.wire)
    (text : string) (s : Server.t) : Server.outcome * EventHandler.trace :=
  let '(o, t) := handle_line eh line w s in
  match Server.raised o with
  | Some _ =>
      let o' := Server.loop_error text (Server.state o) in
      (Server.mkOutcome (Server.state o') (Server.logged o ++ Server.logged o')
         None, t)
  | None => (o, t)
  end.

End ReadLoop.

(** ** Counting and naming in the registry *)

(** The records that go with a counted error: the warning of a discarded
    hook and the error of a module that does not load. *)
Definition counted (r : log_record) : bool :=
  match fst r with
  | WARNING | ERROR => true
  | DEBUG | INFO => false
  end.

(** Every hook is stored under its own name, and no name twice. *)
Definition well_named (hooks : Dict.t Hook.t) : Prop :=
  NoDup (map fst hooks)
  /\ forall hook_name hook, In (hook_name, hook) hooks -> Hook.name hook = hook_name.

(** The number of entries of the five dictionaries of a hook *)
Definition entries (m : Hook.matches) : nat :=
  length (Hook.other m) + length (Hook.equal m) + length (Hook.glob m)
  + length (Hook.regex m) + length (Hook.int_ m).

(** What a hook adds to the trace of a dispatch when it raises nothing *)
Definition fired `{Matchers} (server : Server.t) (msg : Message.t)
    (usr_msg usr_msg_cmd : string) (entry : string * Hook.t)
    : list (string * bool) :=
  match Hook.process (snd entry) server msg usr_msg usr_msg_cmd with
  | Ok (Hook.Invoked on_thread) => [(fst entry, on_thread)]
  | _ => []
  end.

(** ** Further examples *)

(** The example server once [connect] has reached the host and both
    registration messages are sent. *)
Definition wired_server : Server.t :=
  Server.state
    (Server.connect (table := demo_table) true Server.Delivered
       Server.Delivered demo_server).

(** A hook on a glob over the user, which the welcome reply of a server
    does not have. *)
Definition tilde_hook : Hook.t :=
  Hook.init "useful*tilde" [("user_glob", VAtom (AStr "~*"))].

(** A plugin directory with a module that declares a helper and a hook,
    and a module that does not load. *)
Definition demo_plugins : hook_dir :=
  mkDir "plugins"
    (Some [ mkFile "utils"
              (Executed
                 (mkNs false None
                    [ ("helper", Function "utils" []);
                      ("reload", Function "utils" reload_decl) ]));
            mkFile "broken" ExecError ]).

(** A registry of three hooks: the second raises on the welcome reply. *)
Definition welcome_registry : Dict.t Hook.t :=
  [ ("utils*ping", ping_hook);
    ("useful*welcome", on_welcome);
    ("useful*op", op_hook) ].

(** * Properties *)

(** ** The codec *)

Section Codec.
Context {table : NumericTable}.

(** C2. [Message.from_raw] raises on the empty line, at [raw[0]], instead
    of returning a degenerate message; it raises as well on a line that is
    a lone channel command, on a prefix with nothing behind it and on a
    command followed by a space only. A prefix followed by a space, which
    has no command token either, does give the degenerate message. *)
Theorem from_raw_raises_on_empty_line :
  Message.from_raw EmptyString = Raise IndexError
  /\ Message.from_raw "JOIN" = Raise IndexError
  /\ Message.from_raw ":nick" = Raise ValueError
  /\ Message.from_raw "PING " = Raise IndexError
  /\ exists m,
       Message.from_raw (table := demo_table) ":nick " = Ok m
       /\ Command.raw (Message.command m) = EmptyString
       /\ Command.symbolic (Message.command m) = Some EmptyString
       /\ Command.recognized (Message.command m) = false.
Proof.
  do 4 (split; [reflexivity|]).
  eexists.
  split; [reflexivity|].
  repeat split.
Qed.

End Codec.

(** ** The round trip *)

Section RoundTrip.
Context {table : NumericTable}.

Lemma contains_app :
  forall c a b,
    Str.contains c (a ++ b) = Str.contains c a || Str.contains c b.
Proof.
  intros c a b.
  induction a as [|x a IH]; simpl.
  - reflexivity.
  - rewrite IH. now rewrite orb_assoc.
Qed.

Lemma split_none :
  forall c a, Str.contains c a = false -> Str.split c a = [a].
Proof.
  intros c a.
  induction a as [|x a IH]; simpl; intros H.
  - reflexivity.
  - apply orb_false_iff in H as [Hx Ha].
    rewrite Hx, (IH Ha).
    reflexivity.
Qed.

Lemma split_one :
  forall c a b,
    Str.contains c a = false ->
    Str.contains c b = false ->
    Str.split c (a ++ String c b) = [a; b].
Proof.
  intros c a b Ha Hb.
  induction a as [|x a IH]; simpl.
  - rewrite Ascii.eqb_refl, (split_none c b Hb).
    reflexivity.
  - simpl in Ha.
    apply orb_false_iff in Ha as [Hx Ha].
    rewrite Hx, (IH Ha).
    reflexivity.
Qed.

Lemma re_split_space_none :
  forall a, Str.contains Str.space a = false -> Str.re_split_space a = [a].
Proof.
  induction a as [|x a IH]; simpl; intros H.
  - reflexivity.
  - apply orb_false_iff in H as [Hx Ha].
    rewrite Hx, (IH Ha).
    reflexivity.
Qed.

Lemma re_split_space_one :
  forall a b,
    Str.contains Str.space a = false ->
    no_leading_space b ->
    Str.re_split_space (a ++ String Str.space b) = [a; b].
Proof.
  intros a b Ha Hb.
  induction a as [|x a IH]; simpl.
  - now rewrite Hb.
  - simpl in Ha.
    apply orb_false_iff in Ha as [Hx Ha].
    rewrite Hx, (IH Ha).
    reflexivity.
Qed.


Lemma nonempty_no_leading_space :
  forall a s, Ascii.eqb a Str.space = false -> no_leading_space (String a s).
Proof.
  intros a s H.
  unfold no_leading_space.
  simpl. now rewrite H.
Qed.

Lemma token_no_leading_space :
  forall s rest, token s = true -> no_leading_space (s ++ rest).
Proof.
  intros [|a s] rest H; unfold token in H; simpl in H.
  - discriminate.
  - apply nonempty_no_leading_space.
    apply negb_true_iff, orb_false_iff in H.
    tauto.
Qed.

Lemma trailing_text_no_leading_space :
  forall l rest, Str.nonempty l = true -> no_leading_space (trailing_text l ++ rest).
Proof.
  intros l rest Hl.
  unfold trailing_text.
  destruct (starts_with_colon l || Str.contains Str.space l) eqn:E.
  - now apply nonempty_no_leading_space.
  - apply orb_false_iff in E as [_ Hsp].
    apply token_no_leading_space.
    unfold token. now rewrite Hl, Hsp.
Qed.

Lemma trailing_of_nonempty :
  forall l, Str.nonempty l = true -> Message.trailing (Some l) = [trailing_text l].
Proof.
  intros [|a l] H.
  - discriminate.
  - unfold Message.trailing, trailing_text, starts_with_colon.
    now destruct (Ascii.eqb a Str.colon || Str.contains Str.space (String a l)).
Qed.

Lemma keep_truthy_middles :
  forall mids,
    forallb middle mids = true -> Message.keep_truthy (map Some mids) = mids.
Proof.
  induction mids as [|x mids IH]; simpl; intros H.
  - reflexivity.
  - apply andb_true_iff in H as [Hx Hm].
    unfold middle, token in Hx.
    destruct (Str.nonempty x); [|discriminate].
    now rewrite IH.
Qed.

Lemma read_params_done :
  forall n acc, Message.read_params n [] acc = Ok (acc, []).
Proof.
  now intros [|n] acc.
Qed.

(** Reading the text of the last parameter gives the parameter back,
    whether the loop or the block behind it reads it. *)
Lemma read_trailing :
  forall n l acc,
    Str.nonempty l = true ->
    exists ps e,
      Message.read_params n [trailing_text l] acc = Ok (ps, e)
      /\ Message.read_rest ps e = Ok (acc ++ [l]).
Proof.
  intros n l acc Hl.
  unfold trailing_text.
  destruct (starts_with_colon l || Str.contains Str.space l) eqn:E.
  - destruct n as [|n]; simpl.
    + now exists acc, [String Str.colon l].
    + now exists (acc ++ [l]), [].
  - apply orb_false_iff in E as [Hcolon Hsp].
    destruct l as [|a l]; [discriminate|].
    simpl in Hcolon.
    destruct n as [|n].
    + exists acc, [String a l]. simpl. now rewrite Hcolon.
    + exists (acc ++ [String a l]), [].
      cbn [Message.read_params Str.head bind].
      rewrite Hcolon.
      rewrite (re_split_space_none _ Hsp).
      cbn [Str.unpack_star bind].
      now rewrite read_params_done.
Qed.

(** One turn of the loop takes one middle parameter off the line. *)
Lemma read_middle :
  forall n mid rest acc,
    middle mid = true ->
    no_leading_space rest ->
    Message.read_params (S n) [(mid ++ String Str.space rest)%string] acc
    = Message.read_params n [rest] (acc ++ [mid]).
Proof.
  intros n mid rest acc Hmid Hrest.
  unfold middle, token in Hmid.
  apply andb_true_iff in Hmid as [Htok Hcolon].
  apply andb_true_iff in Htok as [Hne Hsp].
  apply negb_true_iff in Hcolon, Hsp.
  destruct mid as [|a mid]; [discriminate|].
  simpl in Hcolon.
  cbn [Message.read_params Str.head bind String.append].
  rewrite Hcolon.
  change (String a (mid ++ String Str.space rest))%string
    with (String a mid ++ String Str.space rest)%string.
  rewrite (re_split_space_one _ _ Hsp Hrest).
  reflexivity.
Qed.

Lemma join_cons :
  forall x y l, Str.join (x :: y :: l) = (x ++ String Str.space (Str.join (y :: l)))%string.
Proof.
  reflexivity.
Qed.

Lemma join_head :
  forall x l, exists rest, Str.join (x :: l) = (x ++ rest)%string.
Proof.
  intros x [|y l].
  - exists EmptyString. simpl.
    induction x as [|a x IH]; simpl; [reflexivity | now rewrite <- IH].
  - now exists (String Str.space (Str.join (y :: l))).
Qed.

Lemma join_no_leading_space :
  forall mids l,
    forallb middle mids = true ->
    Str.nonempty l = true ->
    no_leading_space (Str.join (mids ++ [trailing_text l])).
Proof.
  intros [|x mids] l Hm Hl.
  - destruct (join_head (trailing_text l) []) as [rest Hrest].
    simpl app. rewrite Hrest.
    now apply trailing_text_no_leading_space.
  - simpl in Hm. apply andb_true_iff in Hm as [Hx _].
    destruct (join_head x (mids ++ [trailing_text l])) as [rest Hrest].
    simpl app. rewrite Hrest.
    apply token_no_leading_space.
    unfold middle in Hx. now apply andb_true_iff in Hx as [Hx _].
Qed.

(** Reading the parameters of a written line gives them back. *)
Lemma read_written_params :
  forall mids l n acc,
    (length mids <= n)%nat ->
    forallb middle mids = true ->
    Str.nonempty l = true ->
    exists ps e,
      Message.read_params n [Str.join (mids ++ [trailing_text l])] acc = Ok (ps, e)
      /\ Message.read_rest ps e = Ok (acc ++ mids ++ [l]).
Proof.
  induction mids as [|mid mids IH]; intros l n acc Hlen Hm Hl.
  - apply read_trailing. assumption.
  - destruct n as [|n]; [simpl in Hlen; lia|].
    simpl in Hlen, Hm.
    apply andb_true_iff in Hm as [Hmid Hm].
    destruct (IH l n (acc ++ [mid]) ltac:(lia) Hm Hl) as (ps & e & Hread & Hrest).
    exists ps, e.
    split.
    + assert (Hj : Str.join ((mid :: mids) ++ [trailing_text l])
                   = (mid ++ String Str.space (Str.join (mids ++ [trailing_text l])))%string).
      { simpl app. destruct (mids ++ [trailing_text l]) eqn:E.
        - now destruct mids.
        - reflexivity. }
      rewrite Hj, read_middle; auto using join_no_leading_space.
    + rewrite Hrest, <- app_assoc. reflexivity.
Qed.


Lemma append_empty_r : forall s : string, (s ++ EmptyString)%string = s.
Proof.
  induction s as [|a s IH]; simpl; [reflexivity | now rewrite IH].
Qed.

Lemma option_eqb_refl : forall o, Str.option_eqb o o = true.
Proof.
  intros [x|]; simpl; [apply String.eqb_refl | reflexivity].
Qed.

Lemma params_eqb_refl : forall l, Message.params_eqb l l = true.
Proof.
  induction l as [|x l IH]; simpl.
  - reflexivity.
  - now rewrite option_eqb_refl.
Qed.

Lemma ident_parts :
  forall s,
    ident s = true ->
    Str.nonempty s = true
    /\ Str.contains Str.space s = false
    /\ Str.contains Str.bang s = false
    /\ Str.contains Str.at_sign s = false.
Proof.
  intros s H.
  unfold ident, token in H.
  repeat (apply andb_true_iff in H as [H ?]).
  repeat match goal with
    | H : negb _ = true |- _ => apply negb_true_iff in H
    end.
  auto.
Qed.

(** The prefix that [Prefix.__init__] writes is read back by
    [Prefix.from_raw] with the same name, user and host. *)
Lemma prefix_reads_back :
  forall p n,
    wf_prefix p = true ->
    Prefix.name p = Some n ->
    Prefix.raw p = String Str.colon (prefix_text p)
    /\ Str.contains Str.space (prefix_text p) = false
    /\ exists p', Prefix.from_raw (prefix_text p) = Ok p'
                  /\ Prefix.eq p' p = true.
Proof.
  intros [name user host raw orig] n Hwf Hname.
  unfold wf_prefix, prefix_text in *.
  simpl in *. subst name.
  apply andb_true_iff in Hwf as [Hraw Hparts].
  apply String.eqb_eq in Hraw.
  apply andb_true_iff in Hparts as [Hparts Hhost].
  apply andb_true_iff in Hparts as [Hn Huser].
  apply ident_parts in Hn as (Hn1 & Hn2 & Hn3 & Hn4).
  rewrite Hn1 in Hraw. subst raw.
  simpl Str.tail.
  split; [reflexivity|].
  unfold Prefix.from_raw, Prefix.eq, Prefix.part.
  destruct user as [u|], host as [h|]; simpl in Huser, Hhost;
    try (apply ident_parts in Huser as (Hu1 & Hu2 & Hu3 & Hu4));
    try (apply ident_parts in Hhost as (Hh1 & Hh2 & Hh3 & Hh4));
    rewrite ?Hu1, ?Hh1;
    cbn [String.append];
    rewrite ?contains_app;
    cbn [Str.contains];
    rewrite ?contains_app;
    cbn [Str.contains];
    rewrite ?Hn2, ?Hn3, ?Hn4, ?Hu2, ?Hu3, ?Hu4, ?Hh2, ?Hh3, ?Hh4;
    cbn [orb Ascii.eqb Bool.eqb Str.space Str.bang Str.at_sign andb];
    unfold Str.space, Str.bang, Str.at_sign in *.
  - split; [reflexivity|].
    assert (Hrest : Str.contains "!" (u ++ String "@" h) = false)
      by (rewrite contains_app; simpl; now rewrite Hu3, Hh3).
    rewrite (split_one "!" n _ Hn3 Hrest).
    cbn [Str.unpack2 bind].
    rewrite contains_app. simpl Str.contains at 2.
    rewrite orb_true_r.
    rewrite (split_one "@" u h Hu4 Hh4).
    eexists. split; [reflexivity|].
    simpl. now rewrite !String.eqb_refl.
  - split; [reflexivity|].
    rewrite !append_empty_r.
    rewrite (split_one "!" n u Hn3 Hu3).
    cbn [Str.unpack2 bind].
    rewrite Hu4.
    eexists. split; [reflexivity|].
    simpl. now rewrite !String.eqb_refl.
  - split; [reflexivity|].
    rewrite (split_one "@" n h Hn4 Hh4).
    eexists. split; [reflexivity|].
    simpl. now rewrite !String.eqb_refl.
  - split; [reflexivity|].
    rewrite ?append_empty_r, ?Hn3, ?Hn4.
    eexists. split; [reflexivity|].
    simpl. now rewrite !String.eqb_refl.
Qed.


Lemma init_fields :
  forall c params prefix orig m,
    Message.init c params prefix orig = Ok m ->
    let p := match prefix with None => Prefix.empty | Some p => p end in
    Message.raw m = Str.join (filter Str.nonempty (Message.builder p c params))
    /\ Message.params m = params
    /\ Message.prefix m = p.
Proof.
  intros c params prefix orig m.
  unfold Message.init.
  destruct (Message.needs_channel c).
  - destruct params as [|x params]; simpl; intros H; [discriminate|].
    injection H as <-. auto.
  - simpl. intros H. injection H as <-. auto.
Qed.

Lemma init_succeeds :
  forall c params prefix orig,
    (params = [] -> Message.needs_channel c = false) ->
    exists m,
      Message.init c params prefix orig = Ok m
      /\ Message.params m = params
      /\ Message.prefix m = match prefix with None => Prefix.empty | Some p => p end.
Proof.
  intros c params prefix orig H.
  unfold Message.init.
  destruct (Message.needs_channel c).
  - destruct params as [|x params].
    + now specialize (H eq_refl).
    + simpl. eauto.
  - simpl. eauto.
Qed.

Lemma snoc_cases :
  forall (A : Type) (l : list A) (d : A),
    l = [] \/ l = removelast l ++ [last l d] /\ l <> [].
Proof.
  intros A l d.
  destruct l as [|x l]; [now left | right].
  split; [|discriminate].
  apply app_removelast_last. discriminate.
Qed.

Lemma filter_nonempty_middles :
  forall mids, forallb middle mids = true -> filter Str.nonempty mids = mids.
Proof.
  induction mids as [|x mids IH]; simpl; intros H.
  - reflexivity.
  - apply andb_true_iff in H as [Hx Hm].
    unfold middle, token in Hx.
    destruct (Str.nonempty x); [|discriminate].
    now rewrite IH.
Qed.

Lemma trailing_text_nonempty :
  forall l, Str.nonempty l = true -> Str.nonempty (trailing_text l) = true.
Proof.
  intros l H. unfold trailing_text.
  now destruct (starts_with_colon l || Str.contains Str.space l).
Qed.

(** What [__init__] puts on the line for well-formed parameters: the
    prefix if it is not empty, the command, the parameters. *)
Lemma builder_written :
  forall p c ps,
    middle (Command.raw c) = true ->
    wf_params ps = true ->
    filter Str.nonempty (Message.builder p c (map Some ps))
    = filter Str.nonempty [Prefix.raw p] ++ Command.raw c :: written_params ps.
Proof.
  intros p c ps Hc Hps.
  assert (Hne : Str.nonempty (Command.raw c) = true).
  { unfold middle, token in Hc.
    now destruct (Str.nonempty (Command.raw c)). }
  unfold wf_params in Hps.
  apply andb_true_iff in Hps as [_ Hps].
  destruct (snoc_cases string ps EmptyString) as [-> | [Hsnoc Hnil]].
  - simpl. rewrite Hne. now destruct (Str.nonempty (Prefix.raw p)).
  - unfold written_params.
    destruct ps as [|x ps']; [contradiction|].
    remember (x :: ps') as ps eqn:Eps.
    apply andb_true_iff in Hps as [Hm Hl].
    assert (Hb : Message.builder p c (map Some ps)
                 = [Prefix.raw p; Command.raw c]
                   ++ removelast ps ++ [trailing_text (last ps EmptyString)]).
    { rewrite Hsnoc at 1.
      rewrite map_app. simpl map.
      unfold Message.builder.
      destruct (map Some (removelast ps) ++ [Some (last ps EmptyString)]) eqn:E.
      - now destruct (removelast ps).
      - rewrite <- E.
        rewrite removelast_last, last_last.
        rewrite keep_truthy_middles by assumption.
        now rewrite trailing_of_nonempty. }
    rewrite Hb.
    rewrite filter_app. simpl filter at 1.
    rewrite Hne.
    rewrite filter_app, filter_nonempty_middles by assumption.
    simpl filter. rewrite trailing_text_nonempty by assumption.
    now destruct (Str.nonempty (Prefix.raw p)).
Qed.


(** Reading what is written behind the prefix: the command comes off the
    line, and the loop with the block behind it returns the parameters. *)
Lemma read_written_line :
  forall craw ps,
    middle craw = true ->
    wf_params ps = true ->
    exists end_ ps' e,
      Str.re_split_space (Str.join (craw :: written_params ps)) = craw :: end_
      /\ Message.read_params 14 end_ [] = Ok (ps', e)
      /\ Message.read_rest ps' e = Ok ps.
Proof.
  intros craw ps Hc Hps.
  unfold middle, token in Hc.
  apply andb_true_iff in Hc as [Htok _].
  apply andb_true_iff in Htok as [_ Hsp].
  apply negb_true_iff in Hsp.
  unfold wf_params in Hps.
  apply andb_true_iff in Hps as [Hlen Hps].
  apply Nat.leb_le in Hlen.
  destruct (snoc_cases string ps EmptyString) as [-> | [Hsnoc Hnil]].
  - exists [], [], [].
    change (Str.join (craw :: written_params [])) with craw.
    rewrite (re_split_space_none _ Hsp).
    repeat split.
  - unfold written_params.
    destruct ps as [|x ps']; [contradiction|].
    remember (x :: ps') as ps eqn:Eps.
    apply andb_true_iff in Hps as [Hm Hl].
    assert (Hmids : (length (removelast ps) <= 14)%nat).
    { rewrite Hsnoc, length_app in Hlen. simpl in Hlen. lia. }
    destruct (read_written_params (removelast ps) (last ps EmptyString) 14 []
                Hmids Hm Hl) as (ps1 & e & Hread & Hrest).
    exists [Str.join (removelast ps ++ [trailing_text (last ps EmptyString)])], ps1, e.
    repeat split.
    + destruct (removelast ps ++ [trailing_text (last ps EmptyString)]) eqn:E.
      * now destruct (removelast ps).
      * rewrite join_cons, <- E.
        apply re_split_space_one; [assumption|].
        now apply join_no_leading_space.
    + assumption.
    + rewrite Hrest. simpl. now rewrite <- Hsnoc.
Qed.

Lemma head_join :
  forall x l a s, x = String a s -> Str.head (Str.join (x :: l)) = Ok a.
Proof.
  intros x l a s ->.
  now destruct l.
Qed.


Lemma from_raw_without_prefix :
  forall a s,
    Ascii.eqb a Str.colon = false ->
    Message.from_raw (String a s) = read_body (String a s) None (String a s).
Proof.
  intros a s H.
  unfold Message.from_raw, read_body.
  cbn [Str.head bind].
  rewrite H.
  reflexivity.
Qed.

Lemma from_raw_with_prefix :
  forall t rest p,
    Str.contains Str.space t = false ->
    no_leading_space rest ->
    Prefix.from_raw t = Ok p ->
    Message.from_raw (String Str.colon (t ++ String Str.space rest))
    = read_body rest (Some p) (String Str.colon (t ++ String Str.space rest)).
Proof.
  intros t rest p Ht Hrest Hp.
  unfold Message.from_raw, read_body.
  cbn [Str.head Str.tail bind].
  rewrite Ascii.eqb_refl.
  rewrite (re_split_space_one _ _ Ht Hrest).
  cbn [Str.unpack2 bind].
  rewrite Hp.
  reflexivity.
Qed.

Lemma read_body_written :
  forall c ps prefix orig,
    middle (Command.raw c) = true ->
    wf_params ps = true ->
    read_body (Str.join (Command.raw c :: written_params ps)) prefix orig
    = Message.init (Command.init (Command.raw c)) (map Some ps) prefix (Some orig).
Proof.
  intros c ps prefix orig Hc Hps.
  destruct (read_written_line _ _ Hc Hps) as (end_ & ps' & e & Hsplit & Hread & Hrest).
  unfold read_body.
  rewrite Hsplit.
  cbn [Str.unpack_star bind].
  rewrite Hread.
  cbn [bind].
  rewrite Hrest.
  reflexivity.
Qed.

Lemma middle_head :
  forall s,
    middle s = true ->
    exists a s', s = String a s'
                 /\ Ascii.eqb a Str.colon = false
                 /\ Ascii.eqb a Str.space = false.
Proof.
  intros [|a s] H; unfold middle, token in H; simpl in H.
  - discriminate.
  - exists a, s.
    apply andb_true_iff in H as [Hsp Hcolon].
    apply negb_true_iff in Hsp, Hcolon.
    apply orb_false_iff in Hsp as [Hsp _].
    auto.
Qed.

(** C1, as amended. A message whose command text is a word with no
    leading colon, whose parameters are at most fifteen strings, none
    empty, all but the last being words with no leading colon, and whose
    prefix is empty or has a name and parts that are words with neither
    [!] nor [@], is read back from the line it is written on with the same
    prefix and the same parameters; the reading needs a parameter when the
    command reads as PRIVMSG, NOTICE or JOIN. *)
Theorem roundtrip_of_wellformed_messages :
  forall (c : Command.t) (ps : list string) (prefix : option Prefix.t)
         (orig : option string) (m : Message.t),
    middle (Command.raw c) = true ->
    wf_params ps = true ->
    wf_prefix_opt prefix = true ->
    (ps = [] -> Message.needs_channel (Command.init (Command.raw c)) = false) ->
    Message.init c (map Some ps) prefix orig = Ok m ->
    exists m',
      Message.from_raw (Message.raw m) = Ok m'
      /\ Prefix.eq (Message.prefix m') (Message.prefix m) = true
      /\ Message.params m' = Message.params m
      /\ Message.eq m' m = true.
Proof.
  intros c ps prefix orig m Hc Hps Hprefix Hchan Hinit.
  destruct (init_fields _ _ _ _ _ Hinit) as (Hraw & Hparams & Hpfx).
  rewrite (builder_written _ _ _ Hc Hps) in Hraw.
  assert (Hchan' : map Some ps = [] ->
                   Message.needs_channel (Command.init (Command.raw c)) = false).
  { intros E. apply Hchan. now destruct ps. }
  assert (Hcore : forall prefix' line,
            Message.from_raw line
            = read_body (Str.join (Command.raw c :: written_params ps)) prefix' line ->
            Prefix.eq (match prefix' with None => Prefix.empty | Some p => p end)
                      (Message.prefix m) = true ->
            exists m',
              Message.from_raw line = Ok m'
              /\ Prefix.eq (Message.prefix m') (Message.prefix m) = true
              /\ Message.params m' = Message.params m
              /\ Message.eq m' m = true).
  { intros prefix' line Hfrom Heq.
    rewrite Hfrom, (read_body_written _ _ _ _ Hc Hps).
    destruct (init_succeeds (Command.init (Command.raw c)) (map Some ps)
                prefix' (Some line) Hchan') as (m' & Hm' & Hps' & Hpfx').
    exists m'.
    unfold Message.eq.
    rewrite Hps', Hpfx', Hparams, Heq, params_eqb_refl.
    auto. }
  destruct (middle_head _ Hc) as (a & s & Ecraw & Hcolon & Hspace).
  assert (Hbody : no_leading_space (Str.join (Command.raw c :: written_params ps))).
  { destruct (join_head (Command.raw c) (written_params ps)) as [rest ->].
    rewrite Ecraw. now apply nonempty_no_leading_space. }
  assert (Hplain : Prefix.raw (Message.prefix m) = EmptyString ->
            Prefix.eq Prefix.empty (Message.prefix m) = true ->
            exists m',
              Message.from_raw (Message.raw m) = Ok m'
              /\ Prefix.eq (Message.prefix m') (Message.prefix m) = true
              /\ Message.params m' = Message.params m
              /\ Message.eq m' m = true).
  { intros Hempty Heq.
    rewrite Hpfx in Hempty.
    rewrite Hempty in Hraw.
    simpl filter in Hraw. simpl app in Hraw.
    rewrite Hraw.
    apply (Hcore None); [|assumption].
    destruct (join_head (Command.raw c) (written_params ps)) as [rest Hrest].
    rewrite Hrest, Ecraw.
    apply from_raw_without_prefix. assumption. }
  destruct prefix as [p|].
  - simpl in Hprefix, Hpfx.
    destruct (Prefix.name p) as [n|] eqn:Hname.
    + destruct (prefix_reads_back p n Hprefix Hname)
        as (Hpraw & Htext & p' & Hp' & Heq).
      rewrite Hpraw in Hraw.
      simpl filter in Hraw.
      change ([String Str.colon (prefix_text p)] ++ Command.raw c :: written_params ps)
        with (String Str.colon (prefix_text p) :: Command.raw c :: written_params ps)
        in Hraw.
      rewrite join_cons in Hraw.
      rewrite Hraw.
      apply (Hcore (Some p')).
      * apply from_raw_with_prefix; assumption.
      * now rewrite Hpfx.
    + apply Hplain.
      * rewrite Hpfx.
        unfold wf_prefix in Hprefix. rewrite Hname in Hprefix.
        apply andb_true_iff in Hprefix as [Hpraw _].
        now apply String.eqb_eq in Hpraw.
      * rewrite Hpfx.
        unfold wf_prefix in Hprefix. rewrite Hname in Hprefix.
        apply andb_true_iff in Hprefix as [_ Hparts].
        unfold Prefix.eq. rewrite Hname.
        now destruct (Prefix.user p), (Prefix.host p).
  - apply Hplain; now rewrite Hpfx.
Qed.

End RoundTrip.

(** ** Dispatch *)

Section Dispatch.
Context {matchers : Matchers}.

(** C4. A message whose command is NOTICE reaches no hook: the dispatch
    returns at once, with no callback invoked and nothing raised, whatever
    the hooks declare. *)
Theorem notice_never_dispatched :
  forall (h : EventHandler.t) (server : Server.t) (msg : Message.t),
    Command.symbolic (Message.command msg) = Some "NOTICE" ->
    EventHandler.process h server msg = EventHandler.mkTrace [] None.
Proof.
  intros h server msg Hsym.
  unfold EventHandler.process.
  rewrite Hsym.
  reflexivity.
Qed.

Lemma split_ws_acc_all_space :
  forall s, Str.all_space s = true -> Str.split_ws_acc [] s = [].
Proof.
  induction s as [|a s IH]; simpl; intros H.
  - reflexivity.
  - apply andb_true_iff in H as [Ha Hs].
    rewrite Ha.
    now apply IH.
Qed.

Lemma last_snoc :
  forall (A : Type) (l : list A) (x d : A), last (l ++ [x]) d = x.
Proof.
  intros A l x d.
  induction l as [|y l IH]; simpl.
  - reflexivity.
  - rewrite IH.
    destruct (l ++ [x]) eqn:E.
    + now destruct l.
    + reflexivity.
Qed.

(** C9. A message that is no NOTICE and has no parameter, or whose last
    parameter is empty or whitespace only, makes the dispatch raise
    [IndexError] before any hook is looked at: no callback is invoked. *)
Theorem dispatch_raises_without_user_message :
  forall (h : EventHandler.t) (server : Server.t) (msg : Message.t),
    Command.symbolic (Message.command msg) <> Some "NOTICE" ->
    (Message.params msg = []
     \/ exists ps s, Message.params msg = ps ++ [Some s]
                     /\ Str.all_space s = true) ->
    EventHandler.process h server msg
    = EventHandler.mkTrace [] (Some IndexError).
Proof.
  intros h server msg Hsym Hparams.
  unfold EventHandler.process.
  destruct (Str.option_eqb (Command.symbolic (Message.command msg))
                           (Some "NOTICE")) eqn:E.
  - exfalso. apply Hsym.
    destruct (Command.symbolic (Message.command msg)) as [c|]; simpl in E.
    + apply String.eqb_eq in E. now subst.
    + discriminate.
  - destruct Hparams as [Hnil | (ps & s & Hps & Hspace)].
    + now rewrite Hnil.
    + rewrite Hps.
      destruct (ps ++ [Some s]) as [|p rest] eqn:El.
      * now destruct ps.
      * assert (Hlast : last rest p = Some s).
        { assert (H : last (p :: rest) p = Some s)
            by (rewrite <- El; apply last_snoc).
          simpl in H. destruct rest; [ exact H | exact H ]. }
        rewrite Hlast.
        unfold Str.split_ws.
        now rewrite split_ws_acc_all_space.
Qed.

End Dispatch.

(** ** The server configuration *)

Section Configuration.
Context {table : NumericTable}.

(** C8, as amended. On a connected server the setters of host, port,
    username, realname and ssl store nothing: each leaves the whole state
    as it was, logs one warning and raises nothing. *)
Theorem guarded_setters_refuse_while_connected :
  forall s : Server.t,
    Server.is_connected s = true ->
    (forall v, Server.set_host v s = refusal s "host")
    /\ (forall v, Server.set_port v s = refusal s "port")
    /\ (forall v, Server.set_username v s = refusal s "username")
    /\ (forall v, Server.set_realname v s = refusal s "realname")
    /\ (forall v, Server.set_ssl v s = refusal s "ssl").
Proof.
  intros s Hc.
  unfold Server.set_host, Server.set_port, Server.set_username,
    Server.set_realname, Server.set_ssl.
  rewrite Hc.
  repeat split.
Qed.

Lemma set_connected_flagged :
  forall c online disconnected s,
    flagged (Server._set_connected c online disconnected s).
Proof.
  intros c online disconnected s.
  now exists c.
Qed.

Lemma send_raw_flagged :
  forall raw w s, flagged s -> flagged (Server.state (Server.send_raw raw w s)).
Proof.
  intros raw w s Hs.
  unfold Server.send_raw.
  destruct (Server.is_connected s && Server._socket s); [|exact Hs].
  destruct w; simpl.
  - exact Hs.
  - apply set_connected_flagged.
Qed.

Lemma send_msg_flagged :
  forall cmd params w s,
    flagged s -> flagged (Server.state (Server.send_msg cmd params w s)).
Proof.
  intros cmd params w s Hs.
  unfold Server.send_msg.
  destruct (Message.build cmd params None).
  - now apply send_raw_flagged.
  - exact Hs.
Qed.

Lemma andThen_flagged :
  forall o k,
    flagged (Server.state o) ->
    (forall s, flagged s -> flagged (Server.state (k s))) ->
    flagged (Server.state (Server.andThen o k)).
Proof.
  intros o k Ho Hk.
  unfold Server.andThen.
  destruct (Server.raised o); simpl; auto.
Qed.

Lemma set_authority_flagged :
  forall a s, flagged s -> flagged (Server.state (Server.set_authority a s)).
Proof.
  intros a s Hs.
  unfold Server.set_authority.
  destruct (Server.is_connected s); [exact Hs|].
  destruct (negb (Str.contains Str.at_sign a) || negb (Str.contains Str.colon a));
    [exact Hs|].
  destruct (Str.split1 Str.at_sign a) as [|nick [|rest [|? ?]]]; try exact Hs.
  destruct (Str.rsplit1 Str.colon rest) as [|host [|port [|? ?]]]; try exact Hs.
  destruct (Str.parse_int port); exact Hs.
Qed.

(** Every operation keeps the flag a boolean. *)
Lemma run_flagged :
  forall o s, flagged s -> flagged (Server.state (Server.run o s)).
Proof.
  intros o s Hs.
  destruct o; simpl;
    try apply set_connected_flagged;
    try apply set_authority_flagged;
    try apply send_raw_flagged;
    try apply send_msg_flagged;
    try exact Hs.
  - unfold Server.set_nick.
    destruct (Server.is_connected s); [now apply send_msg_flagged | exact Hs].
  - unfold Server.set_username. now destruct (Server.is_connected s).
  - unfold Server.set_realname. now destruct (Server.is_connected s).
  - unfold Server.set_host. now destruct (Server.is_connected s).
  - unfold Server.set_port. now destruct (Server.is_connected s).
  - unfold Server.set_ssl. now destruct (Server.is_connected s).
  - apply andThen_flagged.
    + now apply send_msg_flagged.
    + intros s' _. apply set_connected_flagged.
  - unfold Server.connect.
    destruct (negb reached); [exact Hs|].
    apply andThen_flagged.
    + apply send_msg_flagged. now exists true.
    + intros s' Hs'. now apply send_msg_flagged.
Qed.

Lemma connected_is_bool :
  forall s : Server.t, Server.reachable s -> flagged s.
Proof.
  intros s Hr.
  induction Hr as [| o s Hr IH].
  - now exists false.
  - now apply run_flagged.
Qed.

(** C10. In every reachable state the [nick] property is the configured
    nick, and the authority string is built from it. *)
Theorem nick_is_always_the_configured_nick :
  forall s : Server.t,
    Server.reachable s ->
    Server.nick s = Some (Server._pre_nick s)
    /\ Server.authority s
       = (Server._pre_nick s ++ "@" ++ Server._host s ++ ":"
          ++ Server.fmt_port (Server._port s))%string.
Proof.
  intros s Hr.
  destruct (connected_is_bool s Hr) as [b Hb].
  unfold Server.authority, Server.nick.
  rewrite Hb.
  split; reflexivity.
Qed.

End Configuration.

(** ** Matching *)

Section Matching.
Context {matchers : Matchers}.

Lemma for_all_true_In :
  forall (A : Type) (body : A -> result bool) (l : list A) (x : A),
    Hook.for_all body l = Ok true -> In x l -> body x = Ok true.
Proof.
  intros A body l x.
  induction l as [|y l IH]; simpl; intros Hall Hin.
  - contradiction.
  - destruct (body y) as [[|]|e] eqn:Ey; simpl in Hall; try discriminate.
    destruct Hin as [-> | Hin]; auto.
Qed.

(** A hook whose callback is invoked has passed every loop of
    [check_matches]. *)
Lemma invoked_passes_matches :
  forall h server msg usr_msg usr_msg_cmd on_thread,
    Hook.process h server msg usr_msg usr_msg_cmd = Ok (Hook.Invoked on_thread) ->
    Hook.check_matches h (Hook.live_msg server msg usr_msg usr_msg_cmd) = Ok true.
Proof.
  intros h server msg usr_msg usr_msg_cmd on_thread.
  unfold Hook.process.
  destruct (Hook.check_matches h _) as [[|]|e]; simpl; intros H;
    try discriminate; reflexivity.
Qed.

Lemma check_matches_glob :
  forall h look,
    Hook.check_matches h look = Ok true ->
    Hook.for_all (fun e => Hook.for_all (Hook.glob_one (look (fst e))) (snd e))
      (Hook.glob (Hook._matches h)) = Ok true.
Proof.
  intros h look.
  unfold Hook.check_matches.
  destruct (Hook.for_all _ (Hook.other _)) as [[|]|e1]; simpl; try discriminate.
  destruct (Hook.for_all _ (Hook.equal _)) as [[|]|e2]; simpl; try discriminate.
  destruct (Hook.for_all _ (Hook.glob _)) as [[|]|e3]; simpl; try discriminate.
  reflexivity.
Qed.

(** C6. Glob criteria are conjunctive: when a hook declares glob patterns
    on a field and the live value of that field fails one of them, the
    callback is not invoked, whatever the other patterns match. *)
Theorem glob_patterns_are_conjunctive :
  forall (h : Hook.t) (server : Server.t) (msg : Message.t)
         (usr_msg usr_msg_cmd field value pat : string) (pats : list atom),
    In (field, pats) (Hook.glob (Hook._matches h)) ->
    Hook.live_msg server msg usr_msg usr_msg_cmd field = Hook.LStr value ->
    In (AStr pat) pats ->
    fnmatch value pat = false ->
    forall on_thread,
      Hook.process h server msg usr_msg usr_msg_cmd
      <> Ok (Hook.Invoked on_thread).
Proof.
  intros h server msg usr_msg usr_msg_cmd field value pat pats
    Hfield Hlive Hpat Hfail on_thread Hfired.
  apply invoked_passes_matches in Hfired.
  apply check_matches_glob in Hfired.
  apply for_all_true_In with (x := (field, pats)) in Hfired; [|assumption].
  simpl in Hfired.
  apply for_all_true_In with (x := AStr pat) in Hfired; [|assumption].
  rewrite Hlive in Hfired.
  simpl in Hfired.
  congruence.
Qed.

(** A numeric-typed criterion with a declared value raises as soon as it
    is reached: the live value of such a field is never a string. *)
Lemma int_criterion_raises :
  forall server msg usr_msg usr_msg_cmd field mm rest,
    In field ["numeric"; "message_len"; "message_len_min"; "message_len_max"] ->
    Hook.for_all
      (Hook.int_one (Hook.live_msg server msg usr_msg usr_msg_cmd field))
      (mm :: rest)
    = Raise AttributeError.
Proof.
  intros server msg usr_msg usr_msg_cmd field mm rest Hin.
  simpl in Hin.
  destruct Hin as [<- | [<- | [<- | [<- | []]]]];
    unfold Hook.live_msg; simpl;
    try reflexivity.
  destruct (Command.numeric (Message.command msg)); reflexivity.
Qed.

(** C7. A hook that declares [numeric = 1] raises [AttributeError] on the
    welcome reply 001, whose numeric is 1, and so does the dispatch of that
    message; a hook that declares [message_len = 3] raises on a message of
    three words. The criterion never completes, let alone passes. *)
Theorem numeric_criterion_raises :
  Command.numeric (Message.command welcome_msg) = Some 1%Z
  /\ Hook.int_ (Hook._matches on_welcome) = [("numeric", [1%Z])]
  /\ Hook.process on_welcome demo_server welcome_msg "Welcome to IRC" "Welcome"
     = Raise AttributeError
  /\ EventHandler.process
       (EventHandler.mk ["plugins"] [("useful*welcome", on_welcome)])
       demo_server welcome_msg
     = EventHandler.mkTrace [] (Some AttributeError)
  /\ Hook.process on_three_words demo_server welcome_msg "Welcome to IRC" "Welcome"
     = Raise AttributeError.
Proof.
  repeat split; reflexivity.
Qed.

(** A hook that declares a requirement on the owner's nick never has its
    callback invoked. *)
Lemma owner_nick_requirement_never_fires :
  forall h server msg usr_msg usr_msg_cmd want on_thread,
    Hook._check_owner_nick h = Some want ->
    Hook.process h server msg usr_msg usr_msg_cmd
    <> Ok (Hook.Invoked on_thread).
Proof.
  intros h server msg usr_msg usr_msg_cmd want on_thread Hnick.
  unfold Hook.process, Hook.check_owner_nick.
  rewrite Hnick.
  destruct (Hook.check_matches h _) as [[|]|e]; simpl; try discriminate.
  destruct (Hook.owner_in _ _); simpl; discriminate.
Qed.

(** With no requirement on the nick and owner sets that are sets, a hook
    that passes its criteria has its callback invoked exactly when the
    sender is in the owner sets as the requirements on user and host say. *)
Lemma owner_requirements_on_user_and_host :
  forall h server msg usr_msg usr_msg_cmd users hosts,
    Hook.check_matches h (Hook.live_msg server msg usr_msg usr_msg_cmd) = Ok true ->
    Hook._check_owner_nick h = None ->
    Server.owner_user server = OwnSet users ->
    Server.owner_host server = OwnSet hosts ->
    let met (want : option bool) (x : option string) (set : list string) :=
      match want with
      | None => true
      | Some b =>
          Bool.eqb
            (match x with
             | Some v => existsb (String.eqb v) set
             | None => false
             end) b
      end in
    Hook.process h server msg usr_msg usr_msg_cmd
    = Ok (if met (Hook._check_owner_user h) (Prefix.user (Message.prefix msg)) users
             && met (Hook._check_owner_host h) (Prefix.host (Message.prefix msg)) hosts
          then Hook.Invoked (Hook._thread_callback h)
          else Hook.Skipped).
Proof.
  intros h server msg usr_msg usr_msg_cmd users hosts Hm Hnick Hu Hh met.
  unfold Hook.process, Hook.check_owner_nick, Hook.check_owner_user,
    Hook.check_owner_host, Hook.owner_in.
  rewrite Hm, Hnick, Hu, Hh.
  subst met. simpl.
  destruct (Hook._check_owner_user h) as [wu|],
           (Hook._check_owner_host h) as [wh|],
           (Prefix.user (Message.prefix msg)) as [u|],
           (Prefix.host (Message.prefix msg)) as [x|];
    simpl;
    repeat match goal with
      | |- context [existsb ?f ?l] => destruct (existsb f l); simpl
      | b : bool |- _ => destruct b; simpl
      end;
    reflexivity.
Qed.

(** C3. The owner, whose nick, user and host are all in the owner sets of
    the server, sends a message that passes the criteria of the hook. With
    the requirement on the host or on the user the callback is invoked;
    with the requirement on the nick, alone or through [is_owner], the
    evaluation raises [NameError] and the callback is not invoked. On a
    server whose owner set for the user is left at [None], the requirement
    on the user raises [TypeError]. *)
Theorem owner_nick_check_raises :
  Hook.process reload_by_host owned_server reload_msg "!reload" "!reload"
  = Ok (Hook.Invoked true)
  /\ Hook.process reload_by_user owned_server reload_msg "!reload" "!reload"
     = Ok (Hook.Invoked true)
  /\ Hook._check_owner_nick reload_by_nick = Some true
  /\ Hook.owner_in (Prefix.name (Message.prefix reload_msg))
       (Server.owner_name owned_server) = Ok true
  /\ Hook.process reload_by_nick owned_server reload_msg "!reload" "!reload"
     = Raise NameError
  /\ Hook.process reload_by_owner owned_server reload_msg "!reload" "!reload"
     = Raise NameError
  /\ Server.owner_user demo_server = OwnNone
  /\ Hook.process reload_by_user demo_server reload_msg "!reload" "!reload"
     = Raise TypeError.
Proof.
  repeat split; reflexivity.
Qed.

End Matching.

(** ** Loading *)

Section Loading.

Lemma dict_set_In :
  forall (V : Type) (k : string) (v : V) (d : Dict.t V) (k' : string) (v' : V),
    In (k', v') (Dict.set k v d) -> (k', v') = (k, v) \/ In (k', v') d.
Proof.
  intros V k v d k' v'.
  induction d as [|[k0 v0] d IH]; simpl; intros H.
  - destruct H as [H | []]. now left.
  - destruct (k0 =? k)%string; simpl in H.
    + destruct H as [H | H]; [now left | now right; right].
    + destruct H as [H | H]; [now right; left |].
      destruct (IH H) as [E | Hin]; [now left | now right; right].
Qed.







End Loading.

(** * Further properties of the code *)

(** ** Commands *)

Section Commands.
Context {table : NumericTable}.

Lemma upper_char_idempotent :
  forall a, Str.upper_char (Str.upper_char a) = Str.upper_char a.
Proof.
  intros [[] [] [] [] [] [] [] []]; reflexivity.
Qed.

Lemma upper_char_digit :
  forall a, Str.is_digit_char (Str.upper_char a) = Str.is_digit_char a.
Proof.
  intros [[] [] [] [] [] [] [] []]; reflexivity.
Qed.

Lemma upper_idempotent : forall s, Str.upper (Str.upper s) = Str.upper s.
Proof.
  induction s as [|a s IH]; simpl.
  - reflexivity.
  - now rewrite upper_char_idempotent, IH.
Qed.

Lemma upper_isdigit : forall s, Str.isdigit (Str.upper s) = Str.isdigit s.
Proof.
  intros s. unfold Str.isdigit.
  f_equal.
  - now destruct s.
  - induction s as [|a s IH]; simpl.
    + reflexivity.
    + now rewrite upper_char_digit, IH.
Qed.

Lemma upper_of_digits :
  forall s, Str.all_digits s = true -> Str.upper s = s.
Proof.
  induction s as [|a s IH]; simpl; intros H.
  - reflexivity.
  - apply andb_true_iff in H as [Ha Hs].
    rewrite (IH Hs). f_equal.
    revert Ha. destruct a as [[] [] [] [] [] [] [] []]; simpl;
      intros Ha; solve [reflexivity | discriminate].
Qed.

(** X1. The letter case of a command token does not matter: the token and its
    upper-case form give the same numeric, symbolic text, raw text and
    recognition flag. *)
Theorem command_ignores_case :
  forall s,
    let c := Command.init s in
    let u := Command.init (Str.upper s) in
    Command.numeric u = Command.numeric c
    /\ Command.symbolic u = Command.symbolic c
    /\ Command.raw u = Command.raw c
    /\ Command.recognized u = Command.recognized c.
Proof.
  intros s c u.
  subst c u.
  unfold Command.init.
  rewrite upper_isdigit.
  destruct (Str.isdigit s) eqn:Hd.
  - unfold Str.isdigit in Hd.
    apply andb_true_iff in Hd as [_ Hd].
    rewrite (upper_of_digits s Hd).
    auto.
  - rewrite upper_idempotent.
    auto.
Qed.

Lemma int_acc_zeros :
  forall k acc s,
    Str.int_acc acc (Str.zeros k ++ s) = Str.int_acc (10 ^ Z.of_nat k * acc) s.
Proof.
  induction k as [|k IH]; intros acc s.
  - simpl Str.zeros. simpl String.append.
    now rewrite Z.pow_0_r, Z.mul_1_l.
  - simpl Str.zeros. simpl String.append.
    cbn [Str.int_acc].
    rewrite IH.
    f_equal.
    change (Z.of_nat (nat_of_ascii "0") - 48)%Z with 0%Z.
    rewrite Nat2Z.inj_succ, Z.pow_succ_r by lia.
    ring.
Qed.

Lemma all_digits_zeros :
  forall k s, Str.all_digits (Str.zeros k ++ s) = Str.all_digits s.
Proof.
  induction k as [|k IH]; intros s; simpl.
  - reflexivity.
  - apply IH.
Qed.

Lemma isdigit_zeros :
  forall k s, Str.isdigit s = true -> Str.isdigit (Str.zeros k ++ s) = true.
Proof.
  intros k s Hd.
  unfold Str.isdigit in *.
  apply andb_true_iff in Hd as [Hne Hd].
  rewrite all_digits_zeros, Hd.
  destruct k; simpl; [now rewrite Hne | reflexivity].
Qed.

Lemma int_zeros : forall k s, Str.int (Str.zeros k ++ s) = Str.int s.
Proof.
  intros k s.
  unfold Str.int. rewrite int_acc_zeros. now rewrite Z.mul_0_r.
Qed.

(** X2. Leading zeros of a numeric token do not matter: the commands compare
    equal, and have the same raw text unless the number is zero. *)
Theorem command_ignores_leading_zeros :
  forall (k : nat) (s : string),
    Str.isdigit s = true ->
    let c := Command.init s in
    let z := Command.init (Str.zeros k ++ s) in
    Command.eq z c = true
    /\ Command.numeric z = Some (Str.int s)
    /\ (Str.int s <> 0%Z -> Command.raw z = Command.raw c).
Proof.
  intros k s Hd c z.
  pose proof (isdigit_zeros k s Hd) as Hz.
  pose proof (int_zeros k s) as Hi.
  subst c z.
  unfold Command.init, Command.eq.
  rewrite Hd, Hz, Hi.
  cbn [Command.numeric Command.symbolic Command.raw Command.truthy_int].
  rewrite Z.eqb_refl.
  split; [|split].
  - destruct (NUMERIC_TO_SYMBOLIC (Str.int s)); simpl;
      [apply String.eqb_refl | reflexivity].
  - reflexivity.
  - intros Hnz.
    apply Z.eqb_neq in Hnz.
    now rewrite Hnz.
Qed.

Lemma upper_nonempty : forall s, Str.nonempty (Str.upper s) = Str.nonempty s.
Proof.
  now intros [|a s].
Qed.

(** X3. [try_numeric] raises [TypeError] on every symbolic command that the
    table gives no numeric: the verbs of the protocol among them. *)
Theorem try_numeric_raises_without_numeric :
  forall s,
    Str.isdigit s = false ->
    Str.nonempty s = true ->
    SYMBOLIC_TO_NUMERIC (Str.upper s) = None ->
    Command.try_numeric (Command.init s) = Raise TypeError.
Proof.
  intros s Hd Hne Hnone.
  unfold Command.try_numeric, Command.init.
  rewrite Hd.
  cbn [Command.symbolic Command.numeric Str.truthy].
  now rewrite upper_nonempty, Hne, Hnone.
Qed.

Lemma int_acc_of_uint_acc :
  forall (d : Decimal.uint) (p : positive),
    Str.int_acc (Zpos p) (NilEmpty.string_of_uint d)
    = Zpos (Pos.of_uint_acc d p).
Proof.
  induction d as [|d IH|d IH|d IH|d IH|d IH|d IH|d IH|d IH|d IH|d IH];
    intros p; cbn [NilEmpty.string_of_uint Str.int_acc Pos.of_uint_acc];
    try reflexivity;
    rewrite <- IH; f_equal;
    match goal with
    | |- context [nat_of_ascii ?c] =>
        let n := eval vm_compute in (Z.of_nat (nat_of_ascii c) - 48)%Z in
        change (Z.of_nat (nat_of_ascii c) - 48)%Z with n
    end;
    lia.
Qed.

Lemma int_of_uint :
  forall d : Decimal.uint,
    Str.int (NilEmpty.string_of_uint d) = Z.of_N (Pos.of_uint d).
Proof.
  unfold Str.int.
  induction d as [|d IH|d IH|d IH|d IH|d IH|d IH|d IH|d IH|d IH|d IH];
    cbn [NilEmpty.string_of_uint Str.int_acc Pos.of_uint];
    try reflexivity;
    try exact IH;
    match goal with
    | |- context [nat_of_ascii ?c] =>
        let n := eval vm_compute in (10 * 0 + (Z.of_nat (nat_of_ascii c) - 48))%Z in
        change (10 * 0 + (Z.of_nat (nat_of_ascii c) - 48))%Z with n
    end;
    apply int_acc_of_uint_acc.
Qed.

Lemma all_digits_of_uint :
  forall d : Decimal.uint, Str.all_digits (NilEmpty.string_of_uint d) = true.
Proof.
  induction d; simpl; auto.
Qed.

(** [int(str(n))] is [n], and [str(n)] is made of digits, for [n >= 0]. *)
Lemma int_of_Z : forall n, (0 <= n)%Z -> Str.int (Str.of_Z n) = n.
Proof.
  intros [|p|p] Hn; try lia.
  - reflexivity.
  - unfold Str.of_Z, Z.to_int, NilZero.string_of_int, NilZero.string_of_uint.
    destruct (Pos.to_uint p) eqn:E;
      try (rewrite <- E, int_of_uint, Unsigned.of_to; reflexivity).
    now apply Unsigned.to_uint_nonnil in E.
Qed.

Lemma isdigit_of_Z : forall n, (0 <= n)%Z -> Str.isdigit (Str.of_Z n) = true.
Proof.
  intros [|p|p] Hn; try lia.
  - reflexivity.
  - unfold Str.of_Z, Z.to_int, NilZero.string_of_int, NilZero.string_of_uint.
    destruct (Pos.to_uint p) eqn:E;
      try (rewrite <- E; unfold Str.isdigit;
           rewrite all_digits_of_uint, andb_true_r;
           rewrite E; reflexivity).
    now apply Unsigned.to_uint_nonnil in E.
Qed.

Lemma int_acc_nonneg :
  forall s acc, Str.all_digits s = true -> (0 <= acc)%Z -> (0 <= Str.int_acc acc s)%Z.
Proof.
  induction s as [|a s IH]; intros acc Hd Hacc.
  - assumption.
  - cbn [Str.all_digits] in Hd. cbn [Str.int_acc].
    apply andb_true_iff in Hd as [Ha Hs].
    apply IH; [assumption|].
    unfold Str.is_digit_char in Ha.
    apply andb_true_iff in Ha as [Hlo _].
    apply Nat.leb_le in Hlo.
    lia.
Qed.

(** What [Command.__init__] builds from a numeric token that is not zero *)
Lemma init_of_digits :
  forall s,
    Str.isdigit s = true ->
    Str.int s <> 0%Z ->
    Command.init s
    = Command.mk s (Some (Str.int s)) (NUMERIC_TO_SYMBOLIC (Str.int s))
        (Str.truthy (NUMERIC_TO_SYMBOLIC (Str.int s)))
        (Str.format_03d (Str.int s)).
Proof.
  intros s Hd Hnz.
  unfold Command.init. rewrite Hd.
  cbn [Command.truthy_int].
  apply Z.eqb_neq in Hnz. now rewrite Hnz.
Qed.

Lemma format_03d_digits :
  forall n,
    (0 <= n)%Z ->
    Str.isdigit (Str.format_03d n) = true /\ Str.int (Str.format_03d n) = n.
Proof.
  intros n Hn.
  unfold Str.format_03d, Str.zfill.
  destruct (n <? 0)%Z eqn:E; [apply Z.ltb_lt in E; lia|].
  split.
  - apply isdigit_zeros. now apply isdigit_of_Z.
  - rewrite int_zeros. now apply int_of_Z.
Qed.

(** X4. The raw text of a numeric command is a normal form: read as a command
    again it gives the same numeric, symbolic text, raw text and flag. *)
Theorem numeric_raw_is_a_normal_form :
  forall s,
    Str.isdigit s = true ->
    Str.int s <> 0%Z ->
    let c := Command.init s in
    let r := Command.init (Command.raw c) in
    Command.raw c = Str.format_03d (Str.int s)
    /\ Command.numeric r = Command.numeric c
    /\ Command.symbolic r = Command.symbolic c
    /\ Command.raw r = Command.raw c
    /\ Command.recognized r = Command.recognized c.
Proof.
  intros s Hd Hnz c r.
  assert (Hpos : (0 <= Str.int s)%Z).
  { unfold Str.isdigit in Hd. apply andb_true_iff in Hd as [_ Hd].
    now apply int_acc_nonneg. }
  destruct (format_03d_digits _ Hpos) as [Hfd Hfi].
  subst r c.
  rewrite (init_of_digits s Hd Hnz).
  cbn [Command.raw Command.numeric Command.symbolic Command.recognized].
  rewrite (init_of_digits _ Hfd) by now rewrite Hfi.
  cbn [Command.raw Command.numeric Command.symbolic Command.recognized].
  rewrite Hfi.
  auto.
Qed.

Lemma lstrip_zeros_zeros :
  forall k s,
    Command.lstrip_zeros (Str.zeros k ++ s) = Command.lstrip_zeros s.
Proof.
  induction k as [|k IH]; intros s; simpl.
  - reflexivity.
  - apply IH.
Qed.

Lemma to_uint_unorm :
  forall p, Decimal.unorm (Pos.to_uint p) = Pos.to_uint p.
Proof.
  intros p.
  rewrite <- (Unsigned.to_of (Pos.to_uint p)), Unsigned.of_to.
  reflexivity.
Qed.

(** [str(n)] has no leading zero when [n > 0]. *)
Lemma lstrip_zeros_of_Z :
  forall n, (0 < n)%Z -> Command.lstrip_zeros (Str.of_Z n) = Str.of_Z n.
Proof.
  intros [|p|p] Hn; try lia.
  unfold Str.of_Z, Z.to_int, NilZero.string_of_int, NilZero.string_of_uint.
  pose proof (to_uint_unorm p) as Hu.
  pose proof (Unsigned.to_uint_nonzero p) as Hz.
  pose proof (Unsigned.to_uint_nonnil p) as Hnil.
  destruct (Pos.to_uint p) as [|d|d|d|d|d|d|d|d|d|d]; try reflexivity.
  - now contradiction Hnil.
  - exfalso.
    rewrite DecimalFacts.unorm_D0 in Hu.
    destruct (Decimal.uint_eq_dec d Decimal.Nil) as [-> | Hd].
    + now apply Hz.
    + pose proof (DecimalFacts.nb_digits_unorm d Hd) as Hlen.
      rewrite Hu in Hlen. simpl in Hlen. lia.
Qed.

(** X5. A numeric command compares equal to the decimal text of its number,
    with any zero padding; a symbolic command compares equal to its text
    in upper case. *)
Theorem command_equals_its_texts :
  (forall (s : string) (k : nat),
     Str.isdigit s = true ->
     Str.int s <> 0%Z ->
     Command.eq_str (Command.init s) (Str.zeros k ++ Str.of_Z (Str.int s)) = true)
  /\ (forall s : string,
        Str.isdigit s = false ->
        Str.nonempty s = true ->
        Command.eq_str (Command.init s) (Str.upper s) = true).
Proof.
  split.
  - intros s k Hd Hnz.
    assert (Hpos : (0 < Str.int s)%Z).
    { unfold Str.isdigit in Hd. apply andb_true_iff in Hd as [_ Hd'].
      pose proof (int_acc_nonneg s 0 Hd' ltac:(lia)). unfold Str.int in *. lia. }
    rewrite (init_of_digits s Hd Hnz).
    unfold Command.eq_str.
    cbn [Command.numeric Command.symbolic].
    rewrite lstrip_zeros_zeros, (lstrip_zeros_of_Z _ Hpos), String.eqb_refl.
    apply Z.eqb_neq in Hnz. rewrite Hnz.
    apply orb_true_r.
  - intros s Hd Hne.
    unfold Command.eq_str, Command.init.
    rewrite Hd.
    cbn [Command.numeric Command.symbolic].
    now rewrite upper_nonempty, Hne, String.eqb_refl.
Qed.

End Commands.

(** ** Parsing *)

Section Parsing.
Context {table : NumericTable}.

Lemma lstrip_spaces_no_leading_space :
  forall s, no_leading_space (Str.lstrip_spaces s).
Proof.
  unfold no_leading_space.
  induction s as [|a s IH]; simpl.
  - reflexivity.
  - destruct (Ascii.eqb a Str.space) eqn:E.
    + exact IH.
    + simpl. now rewrite E.
Qed.

(** [re.split(RE_SPACE, s, 1)] gives one or two pieces; the first has no
    space, the second no leading space, and the first is empty only when
    the string is empty or begins with a space. *)
Lemma lstrip_spaces_length :
  forall t, String.length (Str.lstrip_spaces t) <= String.length t.
Proof.
  induction t as [|x t IH]; simpl; [lia|].
  destruct (Ascii.eqb x Str.space); simpl; lia.
Qed.

Lemma no_leading_space_head :
  forall c s, no_leading_space (String c s) -> Ascii.eqb c Str.space = false.
Proof.
  intros c s H.
  unfold no_leading_space in H. simpl in H.
  destruct (Ascii.eqb c Str.space); [|reflexivity].
  pose proof (lstrip_spaces_length s) as Hlen.
  rewrite H in Hlen. simpl in Hlen. lia.
Qed.

Lemma re_split_space_shape :
  forall s,
    exists a rest,
      Str.re_split_space s = a :: rest
      /\ Str.contains Str.space a = false
      /\ (rest = [] \/ exists b, rest = [b] /\ no_leading_space b)
      /\ (no_leading_space s -> Str.nonempty s = true ->
          Str.nonempty a = true /\ Str.head a = Str.head s).
Proof.
  induction s as [|c s IH].
  - exists EmptyString, [].
    split; [reflexivity|]. split; [reflexivity|]. split; [now left|].
    intros _ H. discriminate H.
  - cbn [Str.re_split_space].
    destruct (Ascii.eqb c Str.space) eqn:E.
    + exists EmptyString, [Str.lstrip_spaces s].
      split; [reflexivity|]. split; [reflexivity|]. split.
      * right. eexists. split; [reflexivity|]. apply lstrip_spaces_no_leading_space.
      * intros H _. apply no_leading_space_head in H. congruence.
    + destruct IH as (a & rest & Hs & Ha & Hrest & _).
      rewrite Hs.
      exists (String c a), rest.
      split; [reflexivity|]. split; [simpl; now rewrite E, Ha|].
      split; [assumption|].
      intros _ _. split; reflexivity.
Qed.

(** The parameters read so far, and what is left to read: the middle
    parameters are words with no leading colon. *)
Lemma read_params_shape :
  forall fuel end_ acc ps e,
    (end_ = [] \/ exists b, end_ = [b] /\ no_leading_space b) ->
    Message.read_params fuel end_ acc = Ok (ps, e) ->
    exists mids tail_,
      ps = acc ++ mids ++ tail_
      /\ forallb middle mids = true
      /\ length mids + length tail_ <= fuel
      /\ (e = [] \/ tail_ = [] /\ length mids = fuel)
      /\ length tail_ <= 1
      /\ length e <= 1.
Proof.
  induction fuel as [|fuel IH]; intros end_ acc ps e Hend Hread.
  - simpl in Hread. injection Hread as <- <-.
    exists [], []. rewrite app_nil_r.
    destruct Hend as [-> | (b & -> & _)]; repeat split; auto; simpl; lia.
  - cbn [Message.read_params] in Hread.
    destruct Hend as [-> | (b & -> & Hb)].
    + injection Hread as <- <-.
      exists [], []. rewrite app_nil_r. repeat split; auto; simpl; lia.
    + destruct b as [|c b]; [discriminate|].
      cbn [Str.head bind] in Hread.
      destruct (Ascii.eqb c Str.colon) eqn:Ec.
      * injection Hread as <- <-.
        exists [], [Str.tail (String c b)].
        repeat split; auto; simpl; lia.
      * destruct (re_split_space_shape (String c b))
          as (a & rest & Hs & Ha & Hrest & Hhead).
        rewrite Hs in Hread.
        cbn [Str.unpack_star bind] in Hread.
        destruct (Hhead Hb eq_refl) as [Hne Hh].
        apply IH in Hread; [|exact Hrest].
        destruct Hread as (mids & tail_ & Hps & Hm & Hlen & He & Ht & Hle).
        exists (a :: mids), tail_.
        rewrite Hps, <- app_assoc.
        repeat split; auto.
        -- cbn [forallb]. rewrite Hm, andb_true_r.
           unfold middle, token. rewrite Hne, Ha.
           destruct a as [|x a]; [discriminate|].
           simpl in Hh. injection Hh as ->.
           simpl. now rewrite Ec.
        -- simpl. lia.
        -- destruct He as [He | [He1 He2]]; [now left | right].
           split; [assumption | simpl; lia].
Qed.

Lemma read_rest_shape :
  forall ps e r,
    length e <= 1 ->
    Message.read_rest ps e = Ok r ->
    exists tail_, r = ps ++ tail_ /\ length tail_ <= 1 /\ (e = [] -> tail_ = []).
Proof.
  intros ps e r He Hr.
  unfold Message.read_rest in Hr.
  destruct e as [|x e].
  - injection Hr as <-. exists []. rewrite app_nil_r. auto.
  - destruct (Str.head x); [|discriminate].
    simpl in Hr. injection Hr as <-.
    eexists. split; [reflexivity|]. split; [simpl; lia | discriminate].
Qed.

Lemma forallb_removelast :
  forall (A : Type) (f : A -> bool) (l : list A),
    forallb f l = true -> forallb f (removelast l) = true.
Proof.
  intros A f l.
  induction l as [|a l IH]; intros H.
  - reflexivity.
  - cbn [forallb] in H. apply andb_true_iff in H as [Ha Hl].
    destruct l as [|b l]; [reflexivity|].
    change (removelast (a :: b :: l)) with (a :: removelast (b :: l)).
    cbn [forallb]. now rewrite Ha, (IH Hl).
Qed.

Lemma removelast_middles :
  forall mids tail_,
    forallb middle mids = true ->
    length tail_ <= 1 ->
    forallb middle (removelast (mids ++ tail_)) = true.
Proof.
  intros mids [|x [|y tail_]] Hm Ht; simpl in Ht; try lia.
  - rewrite app_nil_r. now apply forallb_removelast.
  - now rewrite removelast_last.
Qed.

(** What [read_body] returns: at most fifteen parameters, all present,
    all but the last being words with no leading colon. *)
Lemma read_body_shape :
  forall raw prefix orig m,
    read_body raw prefix orig = Ok m ->
    Message.orig m = orig
    /\ exists ps,
         Message.params m = map Some ps
         /\ length ps <= 15
         /\ forallb middle (removelast ps) = true.
Proof.
  intros raw prefix orig m H.
  unfold read_body in H.
  destruct (re_split_space_shape raw) as (a & rest & Hs & _ & Hrest & _).
  rewrite Hs in H.
  cbn [Str.unpack_star bind] in H.
  destruct (Message.read_params 14 rest []) as [[ps e]|] eqn:Hread; [|discriminate].
  cbn [bind] in H.
  destruct (read_params_shape _ _ _ _ _ Hrest Hread)
    as (mids & tail_ & Hps & Hm & Hlen & He & Ht & Hle).
  destruct (Message.read_rest ps e) as [r|] eqn:Hr; [|discriminate].
  cbn [bind] in H.
  destruct (read_rest_shape _ _ _ Hle Hr) as (tail2 & Hr2 & Ht2 & He2).
  destruct (init_fields _ _ _ _ _ H) as (_ & Hparams & _).
  split.
  - unfold Message.init in H.
    destruct (Message.needs_channel _); [destruct (map Some r)|];
      simpl in H; try discriminate; injection H as <-; reflexivity.
  - exists r. split; [assumption|].
    subst r ps. simpl app.
    destruct He as [-> | [-> Hfull]].
    + rewrite (He2 eq_refl), app_nil_r.
      split; [rewrite length_app; lia|].
      now apply removelast_middles.
    + rewrite app_nil_r.
      split; [rewrite length_app; lia|].
      now apply removelast_middles.
Qed.

(** X6. Every line that [from_raw] accepts gives a message with at most
    fifteen parameters, none of them [None], of which all but the last are
    non-empty words without space or leading colon; [orig] is the line. *)
Theorem parsed_message_shape :
  forall line m,
    Message.from_raw line = Ok m ->
    Message.orig m = line
    /\ exists ps,
         Message.params m = map Some ps
         /\ length ps <= 15
         /\ forallb middle (removelast ps) = true.
Proof.
  intros line m H.
  assert (Hbody : exists raw prefix, read_body raw prefix line = Ok m).
  { unfold Message.from_raw in H.
    destruct line as [|c line]; [discriminate|].
    cbn [Str.head Str.tail bind] in H.
    destruct (Ascii.eqb c Str.colon).
    - destruct (Str.re_split_space line) as [|tmpraw [|raw [|x l]]];
        cbn [Str.unpack2 bind] in H; try discriminate.
      destruct (Prefix.from_raw tmpraw) as [p|]; cbn [bind] in H; [|discriminate].
      now exists raw, (Some p).
    - now exists (String c line), None. }
  destruct Hbody as (raw & prefix & Hbody).
  now apply read_body_shape in Hbody.
Qed.

Lemma option_eqb_eq :
  forall a b, Str.option_eqb a b = true -> a = b.
Proof.
  intros [x|] [y|]; simpl; intros H; try discriminate; try reflexivity.
  apply String.eqb_eq in H. now subst.
Qed.

(** The raw text of a parsed prefix is the one [__init__] writes from its
    name, user and host. *)
Lemma from_raw_prefix_raw :
  forall s p,
    Prefix.from_raw s = Ok p ->
    Prefix.raw p
    = Prefix.raw (Prefix.init (Prefix.name p) (Prefix.user p) (Prefix.host p) None)
    /\ Prefix.orig p = s.
Proof.
  intros s p.
  unfold Prefix.from_raw.
  destruct (Str.contains Str.bang s).
  - destruct (Str.unpack2 (Str.split Str.bang s)) as [[n u]|]; cbn [bind];
      [|discriminate].
    destruct (Str.contains Str.at_sign u).
    + destruct (Str.unpack2 (Str.split Str.at_sign u)) as [[u' h]|]; cbn [bind];
        [|discriminate].
      intros H. injection H as <-. split; reflexivity.
    + intros H. injection H as <-. split; reflexivity.
  - destruct (Str.contains Str.at_sign s).
    + destruct (Str.unpack2 (Str.split Str.at_sign s)) as [[n h]|]; cbn [bind];
        [|discriminate].
      intros H. injection H as <-. split; reflexivity.
    + intros H. injection H as <-. split; reflexivity.
Qed.

(** X7. The text that [Prefix.__init__] writes for a name, user and host that
    are words without [!] and [@] is read back by [Prefix.from_raw] to the
    same name, user and host, and to the same raw text. *)
Theorem prefix_text_reads_back :
  forall (n : string) (u h : option string),
    ident n = true ->
    opt_ident u = true ->
    opt_ident h = true ->
    let p := Prefix.init (Some n) u h None in
    exists p',
      Prefix.from_raw (Str.tail (Prefix.raw p)) = Ok p'
      /\ Prefix.name p' = Some n
      /\ Prefix.user p' = u
      /\ Prefix.host p' = h
      /\ Prefix.raw p' = Prefix.raw p.
Proof.
  intros n u h Hn Hu Hh p.
  assert (Hwf : wf_prefix p = true).
  { unfold wf_prefix. subst p. cbn [Prefix.init Prefix.name Prefix.user Prefix.host].
    rewrite Hn, Hu, Hh.
    cbn [Prefix.raw]. now rewrite String.eqb_refl. }
  destruct (prefix_reads_back p n Hwf eq_refl) as (_ & _ & p' & Hp' & Heq).
  exists p'.
  split; [exact Hp'|].
  unfold Prefix.eq in Heq.
  apply andb_true_iff in Heq as [Heq Hhost].
  apply andb_true_iff in Heq as [Hname Huser].
  apply option_eqb_eq in Hname, Huser, Hhost.
  destruct (from_raw_prefix_raw _ _ Hp') as [Hraw _].
  rewrite Hraw, Hname, Huser, Hhost.
  subst p. auto.
Qed.

Lemma contains_sep :
  forall c a b, Str.contains c (a ++ String c b) = true.
Proof.
  intros c a b.
  rewrite contains_app.
  cbn [Str.contains].
  rewrite Ascii.eqb_refl.
  apply orb_true_r.
Qed.

Lemma split_at_least_two :
  forall c s,
    Str.contains c s = true -> exists x y l, Str.split c s = x :: y :: l.
Proof.
  intros c s.
  induction s as [|a s IH]; simpl; intros H.
  - discriminate.
  - destruct (Ascii.eqb a c) eqn:E.
    + destruct (Str.split c s) as [|w ws] eqn:Es.
      * now destruct s; simpl in Es; [|destruct (Ascii.eqb a0 c), (Str.split c s)].
      * now exists EmptyString, w, ws.
    + simpl in H.
      destruct (IH H) as (x & y & l & ->).
      now exists (String a x), y, l.
Qed.

Lemma split_at_least_three :
  forall c a b,
    Str.contains c b = true ->
    exists x y z l, Str.split c (a ++ String c b) = x :: y :: z :: l.
Proof.
  intros c a b Hb.
  destruct (split_at_least_two c b Hb) as (x & y & l & Hs).
  induction a as [|k a IH]; simpl.
  - rewrite Ascii.eqb_refl, Hs. now exists EmptyString, x, y, l.
  - destruct IH as (x' & y' & z' & l' & ->).
    destruct (Ascii.eqb k c).
    + now exists EmptyString, x', y', (z' :: l').
    + now exists (String k x'), y', z', l'.
Qed.

Lemma re_split_space_gen :
  forall a b,
    Str.contains Str.space a = false ->
    Str.re_split_space (a ++ String Str.space b) = [a; Str.lstrip_spaces b].
Proof.
  intros a b Ha.
  induction a as [|x a IH]; simpl.
  - reflexivity.
  - simpl in Ha.
    apply orb_false_iff in Ha as [Hx Ha].
    rewrite Hx, (IH Ha).
    reflexivity.
Qed.

(** X8. A line whose prefix holds two exclamation marks, or no exclamation
    mark and two at signs, makes [from_raw] raise [ValueError], whatever
    follows the prefix. *)
Theorem prefix_with_two_separators_raises :
  forall (a b c rest : string),
    let bangs := (a ++ String Str.bang (b ++ String Str.bang c))%string in
    let ats := (a ++ String Str.at_sign (b ++ String Str.at_sign c))%string in
    (Prefix.from_raw bangs = Raise ValueError
     /\ (Str.contains Str.space bangs = false ->
         Message.from_raw (String Str.colon (bangs ++ String Str.space rest))
         = Raise ValueError))
    /\ (Str.contains Str.bang ats = false ->
        Prefix.from_raw ats = Raise ValueError
        /\ (Str.contains Str.space ats = false ->
            Message.from_raw (String Str.colon (ats ++ String Str.space rest))
            = Raise ValueError)).
Proof.
  intros a b c rest bangs ats.
  assert (Hraise : forall t,
            Prefix.from_raw t = Raise ValueError ->
            Str.contains Str.space t = false ->
            Message.from_raw (String Str.colon (t ++ String Str.space rest))
            = Raise ValueError).
  { intros t Ht Hsp.
    unfold Message.from_raw.
    cbn [Str.head Str.tail bind].
    rewrite Ascii.eqb_refl, (re_split_space_gen _ _ Hsp).
    cbn [Str.unpack2 bind].
    now rewrite Ht. }
  assert (Hbangs : Prefix.from_raw bangs = Raise ValueError).
  { unfold Prefix.from_raw, bangs.
    pose proof (contains_sep Str.bang b c) as Hc.
    rewrite contains_sep.
    destruct (split_at_least_three Str.bang a _ Hc) as (x & y & z & l & ->).
    reflexivity. }
  split; [split; [exact Hbangs | now apply Hraise]|].
  intros Hnobang.
  assert (Hats : Prefix.from_raw ats = Raise ValueError).
  { unfold Prefix.from_raw. rewrite Hnobang.
    unfold ats.
    pose proof (contains_sep Str.at_sign b c) as Hc.
    rewrite contains_sep.
    destruct (split_at_least_three Str.at_sign a _ Hc) as (x & y & z & l & ->).
    reflexivity. }
  split; [exact Hats | now apply Hraise].
Qed.

End Parsing.

(** ** The server state *)

Section ServerState.
Context {table : NumericTable}.

Lemma set_connected_coherent :
  forall c online disconnected s,
    coherent (Server._set_connected c online disconnected s).
Proof.
  intros c online disconnected s.
  unfold coherent, Server._set_connected, Server.is_connected.
  cbn [Server.with_connection Server._online Server._connected
       Server._disconnected Server._nick].
  destruct c; cbn [negb].
  - repeat split; try discriminate; auto.
    destruct online as [[|]|]; try discriminate.
    intros _. cbn [negb].
    destruct (Str.truthy (Server._nick s)) eqn:E; cbn [negb].
    + destruct (Server._nick s); [eauto | discriminate].
    + eauto.
  - repeat split; try discriminate; auto.
Qed.

Lemma send_raw_coherent :
  forall raw w s, coherent s -> coherent (Server.state (Server.send_raw raw w s)).
Proof.
  intros raw w s Hs.
  unfold Server.send_raw.
  destruct (Server.is_connected s && Server._socket s); [|exact Hs].
  destruct w; simpl.
  - exact Hs.
  - apply set_connected_coherent.
Qed.

Lemma send_msg_coherent :
  forall cmd params w s,
    coherent s -> coherent (Server.state (Server.send_msg cmd params w s)).
Proof.
  intros cmd params w s Hs.
  unfold Server.send_msg.
  destruct (Message.build cmd params None).
  - now apply send_raw_coherent.
  - exact Hs.
Qed.

Lemma andThen_coherent :
  forall o k,
    coherent (Server.state o) ->
    (forall s, coherent s -> coherent (Server.state (k s))) ->
    coherent (Server.state (Server.andThen o k)).
Proof.
  intros o k Ho Hk.
  unfold Server.andThen.
  destruct (Server.raised o); simpl; auto.
Qed.

(** A server that is not connected is not online either, so the nick that
    the authority setter stores does not break the agreement. *)
Lemma set_authority_coherent :
  forall a s, coherent s -> coherent (Server.state (Server.set_authority a s)).
Proof.
  intros a s Hs.
  unfold Server.set_authority.
  destruct (Server.is_connected s) eqn:Hc; [exact Hs|].
  destruct (negb (Str.contains Str.at_sign a) || negb (Str.contains Str.colon a));
    [exact Hs|].
  assert (Hoff : Server._online s = false).
  { destruct Hs as (Hon & _ & _).
    destruct (Server._online s); [|reflexivity].
    specialize (Hon eq_refl). congruence. }
  assert (Hany : forall nick host port,
            coherent (Server.set_field_port port
                        (Server.set_field_host host
                           (Server.set_field_nick nick s)))).
  { intros nick host port.
    destruct Hs as (_ & Hdis & _).
    unfold coherent, Server.is_connected in *.
    cbn. rewrite Hoff.
    repeat split; try discriminate; auto. }
  assert (Hnick : forall nick, coherent (Server.set_field_nick nick s)).
  { intros nick.
    destruct Hs as (_ & Hdis & _).
    unfold coherent, Server.is_connected in *.
    cbn. rewrite Hoff.
    repeat split; try discriminate; auto. }
  destruct (Str.split1 Str.at_sign a) as [|nick [|rest [|? ?]]]; try exact Hs.
  destruct (Str.rsplit1 Str.colon rest) as [|host [|port [|? ?]]];
    try apply Hnick.
  destruct (Str.parse_int port); apply Hany.
Qed.

Lemma run_coherent :
  forall o s, coherent s -> coherent (Server.state (Server.run o s)).
Proof.
  intros o s Hs.
  destruct o; simpl;
    try apply set_connected_coherent;
    try apply set_authority_coherent;
    try apply send_raw_coherent;
    try apply send_msg_coherent;
    try exact Hs.
  - unfold Server.set_nick.
    destruct (Server.is_connected s); [now apply send_msg_coherent | exact Hs].
  - unfold Server.set_username. now destruct (Server.is_connected s).
  - unfold Server.set_realname. now destruct (Server.is_connected s).
  - unfold Server.set_host. now destruct (Server.is_connected s).
  - unfold Server.set_port. now destruct (Server.is_connected s).
  - unfold Server.set_ssl. now destruct (Server.is_connected s).
  - apply andThen_coherent.
    + now apply send_msg_coherent.
    + intros s' _. apply set_connected_coherent.
  - unfold Server.connect.
    destruct (negb reached); [exact Hs|].
    apply andThen_coherent.
    + apply send_msg_coherent.
      unfold coherent, Server.is_connected. cbn.
      repeat split; try discriminate; auto.
    + intros s' Hs'. now apply send_msg_coherent.
Qed.

(** X9. In every reachable state the flags agree: online implies connected and
    a stored nick, and the disconnected flag excludes connected. *)
Theorem flags_agree_in_reachable_states :
  forall s : Server.t, Server.reachable s -> coherent s.
Proof.
  intros s Hr.
  induction Hr as [| o s Hr IH].
  - unfold coherent, Server.is_connected. cbn.
    repeat split; try discriminate; auto.
  - now apply run_coherent.
Qed.












Lemma digits_exclude :
  forall c s,
    Str.is_digit_char c = false ->
    Str.all_digits s = true ->
    Str.contains c s = false.
Proof.
  intros c s Hc.
  induction s as [|a s IH]; simpl; intros H.
  - reflexivity.
  - apply andb_true_iff in H as [Ha Hs].
    rewrite (IH Hs), orb_false_r.
    destruct (Ascii.eqb a c) eqn:E; [|reflexivity].
    apply Ascii.eqb_eq in E. subst a. congruence.
Qed.

(** X14. [from_authority] reads back the authority of a server: for a nick and
    host without [@], a host without colon and a port that is not
    negative, the text [nick@host:port] gives a server with that nick,
    host and port, and nothing is logged; its authority is the text. *)
Theorem from_authority_reads_authority :
  forall (n h : string) (z : Z),
    Str.contains Str.at_sign n = false ->
    Str.contains Str.at_sign h = false ->
    Str.contains Str.colon h = false ->
    (0 <= z)%Z ->
    let a := (n ++ "@" ++ h ++ ":" ++ Str.of_Z z)%string in
    let s := Server.init n h z "bot" EmptyString false true
               OwnNone OwnNone OwnNone in
    Server.from_authority a = (Ok (Some s), [])
    /\ Server.authority s = a.
Proof.
  intros n h z Hn Hh Hhc Hz a s.
  split; [|reflexivity].
  pose proof (isdigit_of_Z z Hz) as Hd.
  assert (Hall : Str.all_digits (Str.of_Z z) = true).
  { unfold Str.isdigit in Hd. now apply andb_true_iff in Hd as [_ Hd]. }
  assert (Hrest : Str.contains Str.at_sign (h ++ String Str.colon (Str.of_Z z)) = false).
  { rewrite contains_app. cbn [Str.contains].
    rewrite Hh, (digits_exclude Str.at_sign _ eq_refl Hall).
    reflexivity. }
  unfold Server.from_authority.
  subst a.
  change (n ++ "@" ++ h ++ ":" ++ Str.of_Z z)%string
    with (n ++ String Str.at_sign (h ++ String Str.colon (Str.of_Z z)))%string.
  rewrite contains_sep.
  rewrite (split_one _ _ _ Hn Hrest).
  cbn [Str.unpack2].
  rewrite contains_sep.
  rewrite (split_one _ _ _ Hhc (digits_exclude Str.colon _ eq_refl Hall)).
  cbn [Str.unpack2].
  rewrite Hd, (int_of_Z z Hz).
  reflexivity.
Qed.

(** X15. The ways [from_authority] fails. Without [@] it logs an error and
    returns [None]; with a host but no port, or a port that is not made of
    digits, it logs an error and then raises on the unbound [port]; with
    two [@] it raises [ValueError]. *)
Theorem from_authority_failures :
  (forall a,
     Str.contains Str.at_sign a = false ->
     Server.from_authority a = (Ok None, [Server.NickMissing a]))
  /\ (forall n h,
        Str.contains Str.at_sign n = false ->
        Str.contains Str.at_sign h = false ->
        Str.contains Str.colon h = false ->
        let a := (n ++ String Str.at_sign h)%string in
        Server.from_authority a = (Raise NameError, [Server.HostMissing a]))
  /\ (forall n h p,
        Str.contains Str.at_sign n = false ->
        Str.contains Str.at_sign h = false ->
        Str.contains Str.at_sign p = false ->
        Str.contains Str.colon h = false ->
        Str.contains Str.colon p = false ->
        Str.isdigit p = false ->
        let a := (n ++ String Str.at_sign (h ++ String Str.colon p))%string in
        Server.from_authority a = (Raise NameError, [Server.PortNotInt a]))
  /\ (forall n h rest,
        fst (Server.from_authority
               (n ++ String Str.at_sign (h ++ String Str.at_sign rest)))
        = Raise ValueError).
Proof.
  repeat split.
  - intros a Ha. unfold Server.from_authority. now rewrite Ha.
  - intros n h Hn Hh Hc a. subst a.
    unfold Server.from_authority.
    rewrite contains_sep, (split_one _ _ _ Hn Hh).
    cbn [Str.unpack2]. now rewrite Hc.
  - intros n h p Hn Hh Hp Hhc Hpc Hd a. subst a.
    unfold Server.from_authority.
    assert (Hrest : Str.contains Str.at_sign (h ++ String Str.colon p) = false).
    { rewrite contains_app. cbn [Str.contains]. now rewrite Hh, Hp. }
    rewrite contains_sep, (split_one _ _ _ Hn Hrest).
    cbn [Str.unpack2].
    rewrite contains_sep, (split_one _ _ _ Hhc Hpc).
    cbn [Str.unpack2]. now rewrite Hd.
  - intros n h rest.
    unfold Server.from_authority.
    rewrite contains_sep.
    destruct (split_at_least_three Str.at_sign n _ (contains_sep Str.at_sign h rest))
      as (x & y & z & l & ->).
    reflexivity.
Qed.

End ServerState.

(** ** The read loop *)

Section ReadingLines.
Context {table : NumericTable} {matchers : Matchers}.

Lemma from_raw_init :
  forall line m,
    Message.from_raw line = Ok m ->
    exists c ps p, Message.init c ps p (Some line) = Ok m.
Proof.
  intros line m H.
  unfold Message.from_raw in H.
  destruct (Str.head line) as [c|]; cbn [bind] in H; [|discriminate].
  match type of H with
  | bind ?pfx _ = _ => destruct pfx as [[prefix raw]|]; cbn [bind] in H; [|discriminate]
  end.
  destruct (Str.unpack_star (Str.re_split_space raw)) as [[tmpraw end_]|];
    cbn [bind] in H; [|discriminate].
  destruct (Message.read_params 14 end_ []) as [[ps e]|]; cbn [bind] in H;
    [|discriminate].
  destruct (Message.read_rest ps e) as [r|]; cbn [bind] in H; [|discriminate].
  eauto.
Qed.

Lemma init_without_params :
  forall c p o m,
    Message.init c [] p o = Ok m ->
    Message.command m = c /\ Message.needs_channel c = false.
Proof.
  intros c p o m H.
  unfold Message.init in H.
  destruct (Message.needs_channel c); cbn [bind] in H; [discriminate|].
  injection H as <-. auto.
Qed.

(** X16. A line that is parsed to a message without parameter makes the body
    of the read loop raise [IndexError], at the answer to a PING or at the
    dispatch, before any hook is evaluated; the handler of [connect] then
    leaves the server not connected and flagged as disconnected. *)
Theorem parameterless_line_ends_the_connection :
  forall (eh : EventHandler.t) (line : string) (m : Message.t)
         (w : Server.wire) (text : string) (s : Server.t),
    Message.from_raw line = Ok m ->
    Message.params m = [] ->
    Server.raised (fst (handle_line eh line w s)) = Some IndexError
    /\ EventHandler.invoked (snd (handle_line eh line w s)) = []
    /\ let s' := Server.state (fst (read_line eh line w text s)) in
       Server._connected s' = Some false
       /\ Server._disconnected s' = true
       /\ Server._online s' = false
       /\ Server._nick s' = None.
Proof.
  intros eh line m w text s Hm Hps.
  destruct (from_raw_init _ _ Hm) as (c & ps & p & Hinit).
  destruct (init_fields _ _ _ _ _ Hinit) as (_ & Hparams & _).
  rewrite Hps in Hparams. subst ps.
  destruct (init_without_params _ _ _ _ Hinit) as [Hcmd Hch].
  assert (Hbody : Server.raised (fst (handle_line eh line w s)) = Some IndexError
                  /\ EventHandler.invoked (snd (handle_line eh line w s)) = []).
  { unfold handle_line.
    rewrite Hm, Hps.
    destruct (Command.eq_str (Message.command m) "PING").
    - cbn. auto.
    - cbn [Server.raised Server._debug Server.state Server.logged fst snd].
      unfold EventHandler.process.
      rewrite Hps.
      destruct (Str.option_eqb (Command.symbolic (Message.command m))
                               (Some "NOTICE")) eqn:E.
      + exfalso.
        rewrite Hcmd in E.
        unfold Message.needs_channel in Hch.
        destruct (Command.symbolic c) as [sym|]; [|discriminate].
        simpl in E. rewrite E in Hch.
        now rewrite orb_true_r in Hch.
      + cbn. auto. }
  destruct Hbody as [Hraise Hinv].
  split; [exact Hraise|]. split; [exact Hinv|].
  unfold read_line.
  destruct (handle_line eh line w s) as [o t].
  cbn [fst] in Hraise. rewrite Hraise.
  cbn. repeat split.
Qed.

(** The message that [send_pong] builds for one target *)
Lemma pong_message :
  forall target,
    Str.nonempty target = true ->
    SYMBOLIC_TO_NUMERIC "PONG" = None ->
    exists m,
      Message.build "PONG" [Some target; None] None = Ok m
      /\ Message.raw m = ("PONG " ++ target)%string.
Proof.
  intros target Hne Hpong.
  assert (Hc : Command.init "PONG"
               = Command.mk "PONG" None (Some "PONG") true "PONG").
  { unfold Command.init.
    change (Str.isdigit "PONG") with false.
    change (Str.upper "PONG") with "PONG".
    cbv iota. rewrite Hpong. reflexivity. }
  unfold Message.build. rewrite Hc.
  destruct target as [|a target]; [discriminate|].
  eexists. split; reflexivity.
Qed.

(** X17. A PING with a first parameter that is not empty is answered before
    the message is dispatched: on a connected server whose socket takes
    the bytes, the line and then the answer are logged, the answer being
    PONG, a space and the parameter as it is, with no colon even when the
    parameter holds a space; the state is left as it was and the message
    goes to the hooks. The line and the parameter are taken not to end in
    a line break, which the log would strip. *)
Theorem ping_is_answered :
  forall (eh : EventHandler.t) (line : string) (m : Message.t)
         (target : string) (rest : list (option string)) (s : Server.t),
    Message.from_raw line = Ok m ->
    Command.eq_str (Message.command m) "PING" = true ->
    Message.params m = Some target :: rest ->
    Str.nonempty target = true ->
    ends_in_line_break line = false ->
    ends_in_line_break target = false ->
    SYMBOLIC_TO_NUMERIC "PONG" = None ->
    Server.is_connected s && Server._socket s = true ->
    handle_line eh line Server.Delivered s
    = (Server.mkOutcome s
         [(DEBUG, Plain (Server.authority s ++ ": <- " ++ line)%string);
          (DEBUG, Plain (Server.authority s ++ ": -> PONG " ++ target)%string)]
         (EventHandler.raised (EventHandler.process eh s m)),
       EventHandler.process eh s m).
Proof.
  intros eh line m target rest s Hm Hping Hps Hne _ _ Hpong Hconn.
  destruct (pong_message target Hne Hpong) as (pong & Hbuild & Hraw).
  unfold handle_line.
  rewrite Hm, Hping, Hps.
  unfold send_pong, Server.send_msg.
  rewrite Hbuild, Hraw.
  unfold Server.send_raw, Server.andThen.
  cbn [Server.raised Server._debug Server.state Server.logged].
  rewrite Hconn.
  reflexivity.
Qed.

End ReadingLines.

(** ** Hooks *)

Section Hooks.
Context {matchers : Matchers}.

Lemma dict_set_length :
  forall (V : Type) (k : string) (v : V) (d : Dict.t V),
    length d <= length (Dict.set k v d) /\ 1 <= length (Dict.set k v d).
Proof.
  intros V k v d.
  induction d as [|[k' v'] d IH]; simpl.
  - lia.
  - destruct (k' =? k)%string; simpl; lia.
Qed.

Lemma declare_entries :
  forall m entry,
    entries m <= entries (Hook.declare m entry)
    /\ 1 <= entries (Hook.declare m entry).
Proof.
  intros m [attr v].
  unfold Hook.declare, entries.
  destruct (Dict.get attr HANDLED_MATCHES) as [[|]|];
    [destruct (Str.endswith attr "_glob");
       [|destruct (Str.endswith attr "_regex")]| |];
    cbn [Hook.other Hook.equal Hook.glob Hook.regex Hook.int_];
    match goal with
    | |- context [Dict.set ?k ?x ?d] =>
        destruct (dict_set_length _ k x d); lia
    end.
Qed.

Lemma declare_all_entries :
  forall cb m,
    entries m <= entries (fold_left Hook.declare cb m)
    /\ (cb <> [] -> 1 <= entries (fold_left Hook.declare cb m)).
Proof.
  induction cb as [|entry cb IH]; intros m; simpl.
  - split; [lia | congruence].
  - destruct (IH (Hook.declare m entry)) as [Hle _].
    destruct (declare_entries m entry) as [Hm H1].
    split; [lia | intros _; lia].
Qed.

(** X18. A hook has no declared match exactly when its function carries no
    attribute at all: any attribute, be it an unrecognised name, the
    [thread] flag or an owner flag, counts as a match. *)
Theorem no_match_means_no_attribute :
  forall (name : string) (cb : callback),
    Hook.match_count (Hook.init name cb) = 0 <-> cb = [].
Proof.
  intros name cb.
  change (Hook.match_count (Hook.init name cb))
    with (entries (fold_left Hook.declare cb (Hook.mkMatches [] [] [] [] []))).
  split.
  - intros H.
    destruct cb as [|entry cb]; [reflexivity|].
    destruct (declare_all_entries (entry :: cb) (Hook.mkMatches [] [] [] [] []))
      as [_ H1].
    specialize (H1 ltac:(discriminate)). lia.
  - intros ->. reflexivity.
Qed.

Lemma for_all_pure :
  forall (A : Type) (f : A -> bool) (l : list A),
    Hook.for_all (fun x => Ok (f x)) l = Ok (forallb f l).
Proof.
  intros A f l.
  induction l as [|x l IH]; simpl.
  - reflexivity.
  - destruct (f x); simpl; [exact IH | reflexivity].
Qed.

(** X19. Exact-match criteria are membership tests: a hook with no glob, regex
    or numeric criterion and no owner requirement has its callback
    invoked exactly when the live value of every declared field is among
    the declared values; nothing is raised. *)
Theorem exact_criteria_are_membership_tests :
  forall (h : Hook.t) (server : Server.t) (msg : Message.t)
         (usr_msg usr_msg_cmd : string),
    Hook.glob (Hook._matches h) = [] ->
    Hook.regex (Hook._matches h) = [] ->
    Hook.int_ (Hook._matches h) = [] ->
    Hook._check_owner_nick h = None ->
    Hook._check_owner_user h = None ->
    Hook._check_owner_host h = None ->
    Hook.process h server msg usr_msg usr_msg_cmd
    = Ok (if forallb
               (fun e => Hook.live_in
                           (Hook.live_msg server msg usr_msg usr_msg_cmd (fst e))
                           (snd e))
               (Hook.equal (Hook._matches h))
          then Hook.Invoked (Hook._thread_callback h)
          else Hook.Skipped).
Proof.
  intros h server msg usr_msg usr_msg_cmd Hg Hr Hi Hn Hu Hh.
  unfold Hook.process, Hook.check_matches, Hook.check_owner_nick,
    Hook.check_owner_user, Hook.check_owner_host.
  rewrite Hg, Hr, Hi, Hn, Hu, Hh.
  rewrite (for_all_pure _ (fun _ => true)).
  rewrite (for_all_pure _
             (fun e => Hook.live_in
                         (Hook.live_msg server msg usr_msg usr_msg_cmd (fst e))
                         (snd e))).
  assert (Hother : forallb (fun _ : string * list atom => true)
                     (Hook.other (Hook._matches h)) = true).
  { induction (Hook.other (Hook._matches h)); simpl; auto. }
  rewrite Hother.
  cbn [bind negb Hook.for_all].
  now destruct (forallb _ (Hook.equal (Hook._matches h))).
Qed.

(** X20. A function whose only attribute is a name the matcher does not know,
    and no owner flag, gives a hook that the loader keeps and that has its
    callback invoked on every message it is given. *)
Theorem unrecognised_attribute_fires_always :
  forall (name attr : string) (v : pyval),
    Dict.get attr HANDLED_MATCHES = None ->
    existsb (String.eqb attr)
      ["is_owner"; "is_owner_nick"; "is_owner_user"; "is_owner_host"] = false ->
    let h := Hook.init name [(attr, v)] in
    Hook.match_count h = 1
    /\ forall server msg usr_msg usr_msg_cmd,
         Hook.process h server msg usr_msg usr_msg_cmd
         = Ok (Hook.Invoked (Hook._thread_callback h)).
Proof.
  intros name attr v Hget Howner h.
  cbn [existsb] in Howner.
  rewrite !orb_false_iff in Howner.
  destruct Howner as (H1 & H2 & H3 & H4 & _).
  assert (Hm : Hook._matches h
               = Hook.mkMatches
                   [(attr, match v with
                           | VColl l => Hook.to_set l
                           | _ => [AStr (Hook.to_str v)]
                           end)] [] [] [] []).
  { subst h. unfold Hook.init. cbn [Hook._matches fold_left Hook.declare].
    now rewrite Hget. }
  assert (Hchecks : Hook._check_owner_nick h = None
                    /\ Hook._check_owner_user h = None
                    /\ Hook._check_owner_host h = None).
  { subst h. unfold Hook.init, Hook.tri_state.
    cbn [Hook._check_owner_nick Hook._check_owner_user Hook._check_owner_host
         Dict.get].
    now rewrite H1, H2, H3, H4. }
  destruct Hchecks as (Hn & Hu & Hh).
  split.
  - unfold Hook.match_count. now rewrite Hm.
  - intros server msg usr_msg usr_msg_cmd.
    unfold Hook.process, Hook.check_matches, Hook.check_owner_nick,
      Hook.check_owner_user, Hook.check_owner_host.
    rewrite Hm, Hn, Hu, Hh.
    reflexivity.
Qed.

(** X21. A glob criterion on a field whose live value is no string raises
    [TypeError] when it is reached, that is when the exact-match criteria
    pass: so does a glob on the nick for a message without prefix. *)
Theorem glob_on_absent_value_raises :
  forall (h : Hook.t) (server : Server.t) (msg : Message.t)
         (usr_msg usr_msg_cmd field : string) (pat : atom) (pats : list atom)
         (rest : Dict.t (list atom)),
    forallb
      (fun e => Hook.live_in
                  (Hook.live_msg server msg usr_msg usr_msg_cmd (fst e)) (snd e))
      (Hook.equal (Hook._matches h)) = true ->
    Hook.glob (Hook._matches h) = (field, pat :: pats) :: rest ->
    (forall v, Hook.live_msg server msg usr_msg usr_msg_cmd field <> Hook.LStr v) ->
    Hook.process h server msg usr_msg usr_msg_cmd = Raise TypeError.
Proof.
  intros h server msg usr_msg usr_msg_cmd field pat pats rest Heq Hglob Hlive.
  unfold Hook.process, Hook.check_matches.
  rewrite (for_all_pure _ (fun _ => true)).
  rewrite (for_all_pure _
             (fun e => Hook.live_in
                         (Hook.live_msg server msg usr_msg usr_msg_cmd (fst e))
                         (snd e))).
  assert (Hother : forallb (fun _ : string * list atom => true)
                     (Hook.other (Hook._matches h)) = true).
  { induction (Hook.other (Hook._matches h)); simpl; auto. }
  rewrite Hother, Heq, Hglob.
  cbn [bind negb Hook.for_all fst snd].
  unfold Hook.glob_one.
  destruct (Hook.live_msg server msg usr_msg usr_msg_cmd field) as [| v | n |];
    try (now destruct pat).
  now contradiction (Hlive v).
Qed.

Lemma run_hooks_app :
  forall hs1 hs2 server msg usr_msg usr_msg_cmd,
    (forall e, In e hs1 ->
       exists d, Hook.process (snd e) server msg usr_msg usr_msg_cmd = Ok d) ->
    EventHandler.run_hooks (hs1 ++ hs2) server msg usr_msg usr_msg_cmd
    = EventHandler.mkTrace
        (flat_map (fired server msg usr_msg usr_msg_cmd) hs1
         ++ EventHandler.invoked
              (EventHandler.run_hooks hs2 server msg usr_msg usr_msg_cmd))
        (EventHandler.raised
           (EventHandler.run_hooks hs2 server msg usr_msg usr_msg_cmd)).
Proof.
  intros hs1 hs2 server msg usr_msg usr_msg_cmd.
  induction hs1 as [|[n h] hs1 IH]; intros Hok.
  - simpl. now destruct (EventHandler.run_hooks hs2 _ _ _ _).
  - cbn [app EventHandler.run_hooks flat_map].
    destruct (Hok (n, h) (or_introl eq_refl)) as [d Hd].
    cbn [snd] in Hd.
    rewrite IH by (intros e He; apply Hok; now right).
    assert (Hf : fired server msg usr_msg usr_msg_cmd (n, h)
                 = match d with
                   | Hook.Invoked on_thread => [(n, on_thread)]
                   | Hook.Skipped => []
                   end).
    { unfold fired. cbn [fst snd]. rewrite Hd. now destruct d. }
    rewrite Hf, Hd.
    destruct d; cbn [EventHandler.invoked EventHandler.raised app];
      reflexivity.
Qed.

(** X22. When no hook raises, the callbacks invoked by a dispatch are those of
    the hooks that pass, in the order of the registry and once each, and
    the dispatch raises nothing. *)
Theorem dispatch_follows_registry_order :
  forall (hs : Dict.t Hook.t) (server : Server.t) (msg : Message.t)
         (usr_msg usr_msg_cmd : string),
    (forall e, In e hs ->
       exists d, Hook.process (snd e) server msg usr_msg usr_msg_cmd = Ok d) ->
    EventHandler.run_hooks hs server msg usr_msg usr_msg_cmd
    = EventHandler.mkTrace
        (flat_map (fired server msg usr_msg usr_msg_cmd) hs) None.
Proof.
  intros hs server msg usr_msg usr_msg_cmd Hok.
  rewrite <- (app_nil_r hs) at 1.
  rewrite (run_hooks_app hs [] _ _ _ _ Hok).
  cbn [EventHandler.run_hooks EventHandler.invoked EventHandler.raised].
  now rewrite app_nil_r.
Qed.

(** X23. A hook that raises ends the dispatch: the hooks behind it in the
    registry are not evaluated and their callbacks not invoked, whatever
    they declare, and the exception leaves the dispatch. *)
Theorem raising_hook_ends_the_dispatch :
  forall (before behind : Dict.t Hook.t) (hook_name : string) (hook : Hook.t)
         (e : exn) (server : Server.t) (msg : Message.t)
         (usr_msg usr_msg_cmd : string),
    (forall x, In x before ->
       exists d, Hook.process (snd x) server msg usr_msg usr_msg_cmd = Ok d) ->
    Hook.process hook server msg usr_msg usr_msg_cmd = Raise e ->
    EventHandler.run_hooks (before ++ (hook_name, hook) :: behind)
      server msg usr_msg usr_msg_cmd
    = EventHandler.mkTrace
        (flat_map (fired server msg usr_msg usr_msg_cmd) before) (Some e).
Proof.
  intros before behind hook_name hook e server msg usr_msg usr_msg_cmd Hok He.
  rewrite (run_hooks_app before _ _ _ _ _ Hok).
  cbn [EventHandler.run_hooks].
  rewrite He.
  cbn [EventHandler.invoked EventHandler.raised].
  now rewrite app_nil_r.
Qed.

End Hooks.

(** ** The registry *)

Section Registry.

Lemma dict_set_keys :
  forall (V : Type) (k : string) (v : V) (d : Dict.t V),
    map fst (Dict.set k v d)
    = if Dict.mem k d then map fst d else map fst d ++ [k].
Proof.
  intros V k v d.
  unfold Dict.mem.
  induction d as [|[k' v'] d IH]; simpl.
  - reflexivity.
  - destruct (k' =? k)%string eqn:E.
    + apply String.eqb_eq in E. now subst.
    + simpl. rewrite IH. now destruct (Dict.get k d).
Qed.

Lemma dict_mem_In :
  forall (V : Type) (k : string) (d : Dict.t V),
    Dict.mem k d = true <-> In k (map fst d).
Proof.
  intros V k d.
  unfold Dict.mem.
  induction d as [|[k' v'] d IH]; simpl.
  - split; [discriminate | contradiction].
  - destruct (k' =? k)%string eqn:E.
    + apply String.eqb_eq in E. subst. split; auto.
    + apply String.eqb_neq in E. rewrite IH. split; [auto | intros [H|H]; congruence].
Qed.

Lemma dict_set_well_named :
  forall (hooks : Dict.t Hook.t) (hook : Hook.t),
    well_named hooks -> well_named (Dict.set (Hook.name hook) hook hooks).
Proof.
  intros hooks hook [Hnodup Hname].
  split.
  - rewrite dict_set_keys.
    destruct (Dict.mem (Hook.name hook) hooks) eqn:E; [assumption|].
    apply NoDup_app; [assumption | repeat constructor; auto | ].
    intros x Hx [<- | []].
    apply dict_mem_In in Hx. congruence.
  - intros n h Hin.
    apply dict_set_In in Hin as [Heq | Hin].
    + now injection Heq as -> ->.
    + now apply Hname.
Qed.

(** A loop of [load_hooks] keeps what its body keeps. *)
Lemma each_keeps :
  forall (P : EventHandler.loading -> Prop) (A : Type)
         (body : EventHandler.loading -> A -> EventHandler.loading * option exn),
    (forall st x, P st -> P (fst (body st x))) ->
    forall l st, P st -> P (fst (EventHandler.each body l st)).
Proof.
  intros P A body Hbody l.
  induction l as [|x l IH]; simpl; intros st Hst.
  - assumption.
  - specialize (Hbody st x Hst).
    destruct (body st x) as [st' [e|]]; simpl in *.
    + assumption.
    + now apply IH.
Qed.

Lemma load_module_keeps :
  forall P : EventHandler.loading -> Prop,
    (forall module_name st entry,
       P st -> P (EventHandler.load_member module_name st entry)) ->
    (forall st module_name,
       P st ->
       P (EventHandler.mkLoading (EventHandler.hooks st)
            (S (EventHandler.errors st))
            (EventHandler.log st ++ [(ERROR, ModuleError module_name)]))) ->
    forall st f, P st -> P (fst (EventHandler.load_module st f)).
Proof.
  intros P Hmember Herr st f Hst.
  unfold EventHandler.load_module.
  destruct (Str.startswith (stem f) "__"); [assumption|].
  destruct (exec f) as [|ns]; [now apply Herr|].
  destruct (no_load ns); [assumption|].
  destruct (init_raises ns); [assumption|].
  cbn [fst].
  generalize dependent st.
  induction (members ns) as [|entry l IH]; simpl; intros st Hst.
  - assumption.
  - apply IH. now apply Hmember.
Qed.

Lemma load_hooks_keeps :
  forall P : EventHandler.loading -> Prop,
    (forall module_name st entry,
       P st -> P (EventHandler.load_member module_name st entry)) ->
    (forall st module_name,
       P st ->
       P (EventHandler.mkLoading (EventHandler.hooks st)
            (S (EventHandler.errors st))
            (EventHandler.log st ++ [(ERROR, ModuleError module_name)]))) ->
    P (EventHandler.mkLoading [] 0 []) ->
    forall dirs,
      exists st stopped,
        P st
        /\ EventHandler.load_hooks dirs
           = EventHandler.mkLoaded
               (EventHandler.mk (map path (filter EventHandler.is_dir dirs))
                  (EventHandler.hooks st))
               (match stopped with
                | None => Ok (EventHandler.errors st)
                | Some e => Raise e
                end)
               (EventHandler.log st).
Proof.
  intros P Hmember Herr Hinit dirs.
  unfold EventHandler.load_hooks.
  pose proof (each_keeps P hook_dir
    (fun st d => EventHandler.each EventHandler.load_module (EventHandler.files d) st)
    (fun st d Hst =>
       each_keeps P module_file EventHandler.load_module
         (load_module_keeps P Hmember Herr) (EventHandler.files d) st Hst)
    (filter EventHandler.is_dir dirs)
    (EventHandler.mkLoading [] 0 []) Hinit) as Hall.
  destruct (EventHandler.each _ _ _) as [st stopped].
  exists st, stopped. split; [exact Hall | reflexivity].
Qed.

(** X24. In the set that [load_hooks] builds every hook is stored under its own
    name and no name occurs twice: of two functions with the same module
    and name the later one replaces the earlier. *)
Theorem loaded_hooks_are_well_named :
  forall dirs : list hook_dir,
    well_named (EventHandler._hooks (EventHandler.handler (EventHandler.load_hooks dirs))).
Proof.
  intros dirs.
  destruct (load_hooks_keeps (fun st => well_named (EventHandler.hooks st)))
    with (dirs := dirs) as (st & stopped & Hst & ->).
  - intros module_name st [attr func] Hst.
    unfold EventHandler.load_member.
    destruct (Str.startswith attr "__" || (attr =? "init")%string); [assumption|].
    destruct func as [|func_module cb]; [assumption|].
    destruct (negb (func_module =? module_name)%string); [assumption|].
    destruct (Hook.match_count _ =? 0)%nat; [exact Hst|].
    cbn [EventHandler.hooks].
    now apply dict_set_well_named.
  - intros st module_name Hst. exact Hst.
  - split; [constructor | intros n h []].
  - exact Hst.
Qed.

(** X25. The number that [load_hooks] returns is the number of warnings and
    errors it has logged: one for each module that does not load and one
    for each function discarded for want of a match. *)
Theorem returned_errors_are_logged :
  forall (dirs : list hook_dir) (n : nat),
    EventHandler.returned (EventHandler.load_hooks dirs) = Ok n ->
    n = length (filter counted (EventHandler.records (EventHandler.load_hooks dirs))).
Proof.
  intros dirs n.
  destruct (load_hooks_keeps
              (fun st => EventHandler.errors st
                         = length (filter counted (EventHandler.log st))))
    with (dirs := dirs) as (st & stopped & Hst & ->).
  - intros module_name st [attr func] Hst.
    unfold EventHandler.load_member.
    destruct (Str.startswith attr "__" || (attr =? "init")%string); [assumption|].
    destruct func as [|func_module cb]; [assumption|].
    destruct (negb (func_module =? module_name)%string); [assumption|].
    destruct (Hook.match_count _ =? 0)%nat;
      cbn [EventHandler.errors EventHandler.log];
      rewrite filter_app, length_app, Hst; simpl; lia.
  - intros st module_name Hst.
    cbn [EventHandler.errors EventHandler.log].
    rewrite filter_app, length_app, Hst. simpl. lia.
  - reflexivity.
  - cbn [EventHandler.returned EventHandler.records].
    destruct stopped; [discriminate|].
    intros H. injection H as <-. exact Hst.
Qed.

End Registry.

(** ** Removing a hook *)

Section Removal.
Context {matchers : Matchers}.

Lemma dict_del_keys :
  forall (V : Type) (k : string) (d : Dict.t V),
    NoDup (map fst d) -> ~ In k (map fst (Dict.del k d)).
Proof.
  intros V k d.
  induction d as [|[k' v] d IH]; simpl; intros Hnd.
  - auto.
  - inversion Hnd as [|? ? Hnotin Hnd']; subst.
    destruct (k' =? k)%string eqn:E.
    + apply String.eqb_eq in E. now subst.
    + apply String.eqb_neq in E. simpl. intros [H | H]; [congruence|].
      now apply IH.
Qed.

Lemma dict_del_get_other :
  forall (V : Type) (k k' : string) (d : Dict.t V),
    k' <> k -> Dict.get k' (Dict.del k d) = Dict.get k' d.
Proof.
  intros V k k' d Hne.
  induction d as [|[k0 v] d IH]; simpl.
  - reflexivity.
  - destruct (k0 =? k)%string eqn:E.
    + apply String.eqb_eq in E. subst k0.
      destruct (k =? k')%string eqn:E'; [|reflexivity].
      apply String.eqb_eq in E'. congruence.
    + simpl. now rewrite IH.
Qed.

(** The callbacks that a dispatch invokes belong to hooks of the registry. *)
Lemma invoked_are_registered :
  forall hs server msg usr_msg usr_msg_cmd x,
    In x (map fst (EventHandler.invoked
                     (EventHandler.run_hooks hs server msg usr_msg usr_msg_cmd))) ->
    In x (map fst hs).
Proof.
  intros hs server msg usr_msg usr_msg_cmd x.
  induction hs as [|[n h] hs IH]; simpl.
  - auto.
  - destruct (Hook.process h server msg usr_msg usr_msg_cmd) as [[|on_thread]|e];
      simpl; intuition.
Qed.

Lemma process_invokes_registered :
  forall eh server msg x,
    In x (map fst (EventHandler.invoked (EventHandler.process eh server msg))) ->
    In x (map fst (EventHandler._hooks eh)).
Proof.
  intros eh server msg x.
  unfold EventHandler.process.
  destruct (Str.option_eqb _ _); [intros []|].
  destruct (Message.params msg) as [|p ps]; [intros []|].
  destruct (last ps p) as [usr_msg|]; [|intros []].
  destruct (Str.split_ws usr_msg) as [|usr_msg_cmd l]; [intros []|].
  apply invoked_are_registered.
Qed.

(** X26. [rm_hook] answers whether the name was registered. Afterwards the
    name is registered no more and no dispatch invokes it, while the other
    hooks are found as before; an unknown name changes nothing. *)
Theorem removed_hook_is_never_invoked :
  forall (eh : EventHandler.t) (hook_name : string),
    NoDup (map fst (EventHandler._hooks eh)) ->
    let eh' := fst (EventHandler.rm_hook hook_name eh) in
    snd (EventHandler.rm_hook hook_name eh)
    = Dict.mem hook_name (EventHandler._hooks eh)
    /\ Dict.mem hook_name (EventHandler._hooks eh') = false
    /\ (forall server msg,
          ~ In hook_name
              (map fst (EventHandler.invoked (EventHandler.process eh' server msg))))
    /\ (forall other,
          other <> hook_name ->
          Dict.get other (EventHandler._hooks eh')
          = Dict.get other (EventHandler._hooks eh))
    /\ (Dict.mem hook_name (EventHandler._hooks eh) = false -> eh' = eh).
Proof.
  intros eh hook_name Hnd eh'.
  assert (Hgone : ~ In hook_name (map fst (EventHandler._hooks eh'))).
  { subst eh'. unfold EventHandler.rm_hook.
    destruct (Dict.mem hook_name (EventHandler._hooks eh)) eqn:E; cbn [fst].
    - cbn [EventHandler._hooks]. now apply dict_del_keys.
    - intros Hin. apply dict_mem_In in Hin. congruence. }
  split; [|split; [|split; [|split]]].
  - unfold EventHandler.rm_hook.
    now destruct (Dict.mem hook_name (EventHandler._hooks eh)).
  - destruct (Dict.mem hook_name (EventHandler._hooks eh')) eqn:E; [|reflexivity].
    apply dict_mem_In in E. contradiction.
  - intros server msg Hin.
    apply Hgone. eapply process_invokes_registered. exact Hin.
  - intros other Hne.
    subst eh'. unfold EventHandler.rm_hook.
    destruct (Dict.mem hook_name (EventHandler._hooks eh)); cbn [fst].
    + cbn [EventHandler._hooks]. now apply dict_del_get_other.
    + reflexivity.
  - intros Hmem. subst eh'. unfold EventHandler.rm_hook. now rewrite Hmem.
Qed.

End Removal.

(** ** Equality of commands and of messages *)

Section Equality.
Context {table : NumericTable}.

(** The raw text of a command is read off its number when that is not
    zero, else off its symbol when that is not empty, else off the text the
    command was made from. *)
Lemma init_raw :
  forall s,
    Command.raw (Command.init s)
    = if Command.truthy_int (Command.numeric (Command.init s)) then
        match Command.numeric (Command.init s) with
        | Some n => Str.format_03d n
        | None => EmptyString
        end
      else if Str.truthy (Command.symbolic (Command.init s)) then
        match Command.symbolic (Command.init s) with
        | Some x => x
        | None => EmptyString
        end
      else if Str.isdigit s then s else Str.upper s.
Proof.
  intros s.
  unfold Command.init.
  destruct (Str.isdigit s); cbn [Command.raw Command.numeric Command.symbolic].
  - destruct (Command.truthy_int (Some (Str.int s))); [reflexivity|].
    destruct (NUMERIC_TO_SYMBOLIC (Str.int s)) as [x|]; [|reflexivity].
    now destruct (Str.truthy (Some x)).
  - destruct (SYMBOLIC_TO_NUMERIC (Str.upper s)) as [n|].
    + destruct (Command.truthy_int (Some n)); [reflexivity|].
      now destruct (Str.truthy (Some (Str.upper s))).
    + cbn [Command.truthy_int].
      now destruct (Str.truthy (Some (Str.upper s))).
Qed.

Lemma command_eq_fields :
  forall c d,
    Command.eq c d = true ->
    Command.numeric c = Command.numeric d
    /\ Command.symbolic c = Command.symbolic d.
Proof.
  intros c d H.
  unfold Command.eq in H.
  apply andb_true_iff in H as [Hn Hs].
  split; [|now apply option_eqb_eq].
  destruct (Command.numeric c) as [n|], (Command.numeric d) as [n'|];
    try discriminate; [|reflexivity].
  apply Z.eqb_eq in Hn. now subst.
Qed.

(** X27. [__hash__] hashes the raw text while [__eq__] compares number and
    symbol. Two commands that are equal have the same raw text when the
    number is not zero or the symbol is not empty; without a symbol for
    zero, every run of zeros is a command equal to [0] whose raw text is
    the run itself. *)
Theorem equal_commands_share_their_raw_text :
  (forall s t : string,
     Command.eq (Command.init s) (Command.init t) = true ->
     Command.truthy_int (Command.numeric (Command.init s))
     || Str.truthy (Command.symbolic (Command.init s)) = true ->
     Command.raw (Command.init s) = Command.raw (Command.init t))
  /\ (NUMERIC_TO_SYMBOLIC 0%Z = None ->
      forall k : nat,
        Command.eq (Command.init (Str.zeros k ++ "0")) (Command.init "0") = true
        /\ Command.raw (Command.init (Str.zeros k ++ "0"))
           = (Str.zeros k ++ "0")%string).
Proof.
  split.
  - intros s t Heq Htruthy.
    apply command_eq_fields in Heq as [Hn Hs].
    rewrite (init_raw s), (init_raw t), <- Hn, <- Hs.
    destruct (Command.truthy_int (Command.numeric (Command.init s)));
      [reflexivity|].
    destruct (Str.truthy (Command.symbolic (Command.init s)));
      [reflexivity | discriminate].
  - intros Hzero k.
    assert (Hd : Str.isdigit (Str.zeros k ++ "0") = true)
      by now apply isdigit_zeros.
    assert (Hi : Str.int (Str.zeros k ++ "0") = 0%Z)
      by now rewrite int_zeros.
    assert (Hinit : Command.init (Str.zeros k ++ "0")
                    = Command.mk (Str.zeros k ++ "0") (Some 0%Z) None false
                        (Str.zeros k ++ "0")).
    { unfold Command.init. rewrite Hd, Hi, Hzero. reflexivity. }
    rewrite Hinit.
    split; [|reflexivity].
    unfold Command.eq, Command.init.
    change (Str.isdigit "0") with true.
    change (Str.int "0") with 0%Z.
    rewrite Hzero. reflexivity.
Qed.

(** X28. [Message.__eq__] compares the prefix and the parameters and nothing
    else: two messages made with the same parameters and prefix are equal
    whatever their commands and original lines are, although their raw
    texts begin with the raw text of their own command. *)
Theorem message_equality_ignores_the_command :
  forall (c1 c2 : Command.t) (params : list (option string))
         (p : option Prefix.t) (o1 o2 : option string) (m1 m2 : Message.t),
    Message.init c1 params p o1 = Ok m1 ->
    Message.init c2 params p o2 = Ok m2 ->
    Message.eq m1 m2 = true
    /\ Message.command m1 = c1
    /\ Message.command m2 = c2.
Proof.
  intros c1 c2 params p o1 o2 m1 m2 H1 H2.
  destruct (init_fields c1 params p o1 m1 H1) as (_ & Hp1 & Hx1).
  destruct (init_fields c2 params p o2 m2 H2) as (_ & Hp2 & Hx2).
  split; [|split].
  - unfold Message.eq, Prefix.eq.
    rewrite Hp1, Hp2, Hx1, Hx2.
    now rewrite !option_eqb_refl, params_eqb_refl.
  - unfold Message.init in H1.
    destruct (Message.needs_channel c1); [destruct params|];
      cbn [bind] in H1; try discriminate; now injection H1 as <-.
  - unfold Message.init in H2.
    destruct (Message.needs_channel c2); [destruct params|];
      cbn [bind] in H2; try discriminate; now injection H2 as <-.
Qed.

End Equality.

(** ** Channel commands without a parameter *)

Section ChannelCommands.
Context {table : NumericTable} {matchers : Matchers}.

Lemma middle_parts :
  forall w,
    middle w = true ->
    exists a rest,
      w = String a rest
      /\ Ascii.eqb a Str.colon = false
      /\ Str.contains Str.space w = false.
Proof.
  intros w H.
  unfold middle, token in H.
  apply andb_true_iff in H as [H Hc].
  apply andb_true_iff in H as [Hne Hsp].
  destruct w as [|a rest]; [discriminate|].
  exists a, rest.
  split; [reflexivity|].
  split.
  - simpl in Hc. now destruct (Ascii.eqb a Str.colon).
  - now destruct (Str.contains Str.space (String a rest)).
Qed.

(** X29. A line that is a single word naming PRIVMSG, NOTICE or JOIN has no
    parameter to take the channel from: parsing it raises [IndexError], and
    so does building such a message. In the read loop nothing is logged
    for the line and no hook is evaluated. *)
Theorem channel_command_without_parameter_raises :
  forall (w : string) (eh : EventHandler.t) (wr : Server.wire) (s : Server.t),
    middle w = true ->
    Message.needs_channel (Command.init w) = true ->
    Message.from_raw w = Raise IndexError
    /\ Message.build w [] None = Raise IndexError
    /\ handle_line eh w wr s
       = (Server.mkOutcome s [] (Some IndexError), EventHandler.mkTrace [] None).
Proof.
  intros w eh wr s Hw Hch.
  destruct (middle_parts w Hw) as (a & rest & Ew & Ha & Hsp).
  assert (Hraw : Message.from_raw w = Raise IndexError).
  { rewrite Ew, (from_raw_without_prefix a rest Ha), <- Ew.
    unfold read_body.
    rewrite (re_split_space_none w Hsp).
    cbn [Str.unpack_star bind].
    rewrite read_params_done.
    cbn [bind Message.read_rest map].
    unfold Message.init. rewrite Hch. reflexivity. }
  split; [exact Hraw|].
  split.
  - unfold Message.build, Message.init. rewrite Hch. reflexivity.
  - unfold handle_line. rewrite Hraw. reflexivity.
Qed.

End ChannelCommands.

(** ** Registration *)

Section Registration.
Context {table : NumericTable}.




End Registration.

(** ** Worked examples *)

(** The assertions of [test/test_message.py] on its first two messages. *)
Example test_rfc_commands :
  exists m1 m2 m3 m4,
    Message.from_raw (table := demo_table) "JOIN #foobar" = Ok m1
    /\ Message.build (table := demo_table) "JOIN" [Some "#foobar"] None = Ok m2
    /\ Message.eq m1 m2 = true
    /\ Prefix.eq (Message.prefix m1) Prefix.empty = true
    /\ Prefix.bool_ (Message.prefix m1) = false
    /\ Prefix.eq_none (Message.prefix m1) = true
    /\ Command.eq_str (Message.command m1) "JOIN" = true
    /\ Message.params m1 = [Some "#foobar"]
    /\ Message.raw m1 = Message.orig m1
    /\ Message.raw m2 = Message.orig m2
    /\ Message.from_raw (table := demo_table) ":somenick!~someuser@some.host.com JOIN ##core2" = Ok m3
    /\ Message.build (table := demo_table) "JOIN" [Some "##core2"]
         (Some (Prefix.init (Some "somenick") (Some "~someuser")
                  (Some "some.host.com") None)) = Ok m4
    /\ Message.eq m3 m4 = true
    /\ Message.orig m3 = Message.raw m3
    /\ Command.eq_str (Message.command m3) "JOIN" = true
    /\ Message.params m3 = [Some "##core2"]
    /\ Prefix.eq_str (Message.prefix m3) "somenick!~someuser@some.host.com"
       = Ok true.
Proof.
  do 4 eexists.
  repeat (split; [reflexivity|]).
  reflexivity.
Qed.

Lemma roundtrip_of_join_message :
  middle (Command.raw join_cmd) = true
  /\ wf_params ["##core2"] = true
  /\ wf_prefix_opt (Some join_prefix) = true
  /\ Message.init join_cmd (map Some ["##core2"]) (Some join_prefix) None
     = Ok join_msg
  /\ exists m',
       Message.from_raw (table := demo_table) (Message.raw join_msg) = Ok m'
       /\ Prefix.eq (Message.prefix m') (Message.prefix join_msg) = true
       /\ Message.params m' = Message.params join_msg
       /\ Message.eq m' join_msg = true.
Proof.
  do 4 (split; [reflexivity|]).
  apply (roundtrip_of_wellformed_messages (table := demo_table) join_cmd ["##core2"]
           (Some join_prefix) None join_msg);
    solve [reflexivity | discriminate].
Defined.

(** C1, as stated, fails on a message that [send_join] builds when no key
    is given: the absent parameter is kept in [params] and left out of
    the line, so the line reads back with one parameter instead of two. *)
Lemma roundtrip_fails_on_absent_param :
  exists m m',
    Message.build (table := demo_table) "JOIN" [Some "#core2"; None] None = Ok m
    /\ Message.from_raw (table := demo_table) (Message.raw m) = Ok m'
    /\ Message.params m = [Some "#core2"; None]
    /\ Message.params m' = [Some "#core2"]
    /\ Message.eq m' m = false.
Proof.
  do 2 eexists.
  split; [reflexivity|].
  split; [reflexivity|].
  repeat split.
Qed.

Lemma notice_to_ping_hook :
  Command.symbolic (Message.command notice_msg) = Some "NOTICE"
  /\ EventHandler.process (matchers := demo_matchers) demo_handler
       demo_server notice_msg
     = EventHandler.mkTrace [] None.
Proof.
  split; [reflexivity|].
  apply notice_never_dispatched.
  reflexivity.
Defined.

Lemma dispatch_of_blank_message :
  Command.symbolic (Message.command blank_msg) <> Some "NOTICE"
  /\ Message.params blank_msg = [Some "#core2"] ++ [Some "   "]
  /\ Str.all_space "   " = true
  /\ EventHandler.process (matchers := demo_matchers) demo_handler
       demo_server blank_msg
     = EventHandler.mkTrace [] (Some IndexError).
Proof.
  split; [discriminate|].
  split; [reflexivity|].
  split; [reflexivity|].
  apply dispatch_raises_without_user_message.
  - discriminate.
  - right. exists [Some "#core2"], "   ". split; reflexivity.
Defined.

Lemma guarded_setters_on_online_server :
  Server.is_connected online_server = true
  /\ Server.set_host "irc.example.org" online_server
     = refusal online_server "host"
  /\ Server.set_port 6667 online_server = refusal online_server "port"
  /\ Server.set_username "root" online_server
     = refusal online_server "username"
  /\ Server.set_realname "nobody" online_server
     = refusal online_server "realname"
  /\ Server.set_ssl true online_server = refusal online_server "ssl".
Proof.
  split; [reflexivity|].
  destruct (guarded_setters_refuse_while_connected online_server eq_refl)
    as (Hhost & Hport & Huser & Hreal & Hssl).
  repeat split; auto.
Defined.

(** C8, as stated, fails on the owner sets: on a connected server the
    setter of [owner_name] raises [NameError] and logs nothing, and so do
    the setters of [owner_user] and [owner_host]. *)
Lemma owner_setters_raise_while_connected :
  Server.is_connected online_server = true
  /\ Server.set_owner_name (OwnSet ["nova"]) online_server
     = Server.mkOutcome online_server [] (Some NameError)
  /\ Server.set_owner_user (OwnSet ["~n"]) online_server
     = Server.mkOutcome online_server [] (Some NameError)
  /\ Server.set_owner_host (OwnSet ["user/nova"]) online_server
     = Server.mkOutcome online_server [] (Some NameError).
Proof.
  repeat split.
Qed.

Lemma nick_of_online_server :
  Server.reachable (table := demo_table) online_server
  /\ Server.is_connected online_server = true
  /\ Server._online online_server = true
  /\ Server._nick online_server = Some "alt"
  /\ Server.nick online_server = Some "core2bot1"
  /\ Server.authority online_server = "core2bot1@irc.libera.chat:6697".
Proof.
  assert (Hr : Server.reachable (table := demo_table) online_server).
  { unfold online_server, demo_server.
    do 2 apply Server.reach_run.
    apply Server.reach_init. }
  split; [exact Hr|].
  do 3 (split; [reflexivity|]).
  destruct (nick_is_always_the_configured_nick (table := demo_table)
              online_server Hr) as [Hnick Hauth].
  split; [exact Hnick | exact Hauth].
Defined.

Lemma glob_on_op_message :
  In ("nick", [AStr "op_*"; AStr "admin"]) (Hook.glob (Hook._matches op_hook))
  /\ Hook.live_msg demo_server op_msg "!ping" "!ping" "nick" = Hook.LStr "op_bob"
  /\ fnmatch (Matchers := demo_matchers) "op_bob" "op_*" = true
  /\ fnmatch (Matchers := demo_matchers) "op_bob" "admin" = false
  /\ forall on_thread,
       Hook.process (matchers := demo_matchers) op_hook demo_server op_msg
         "!ping" "!ping"
       <> Ok (Hook.Invoked on_thread).
Proof.
  split; [left; reflexivity|].
  do 3 (split; [reflexivity|]).
  apply (glob_patterns_are_conjunctive (matchers := demo_matchers)
           op_hook demo_server op_msg "!ping" "!ping" "nick" "op_bob" "admin"
           [AStr "op_*"; AStr "admin"]).
  - left; reflexivity.
  - reflexivity.
  - right; left; reflexivity.
  - reflexivity.
Defined.


(** ** Worked examples of the further properties *)

Lemma leading_zeros_of_welcome :
  Str.isdigit "1" = true
  /\ Command.eq (Command.init (table := demo_table) "001")
       (Command.init (table := demo_table) "1") = true
  /\ Command.numeric (Command.init (table := demo_table) "001") = Some 1%Z
  /\ Command.raw (Command.init (table := demo_table) "001")
     = Command.raw (Command.init (table := demo_table) "1").
Proof.
  split; [reflexivity|].
  destruct (command_ignores_leading_zeros (table := demo_table) 2 "1" eq_refl)
    as (Heq & Hnum & Hraw).
  split; [exact Heq|].
  split; [exact Hnum|].
  apply Hraw. discriminate.
Defined.

Lemma try_numeric_of_join :
  Str.isdigit "JOIN" = false
  /\ SYMBOLIC_TO_NUMERIC (NumericTable := demo_table) "JOIN" = None
  /\ Command.try_numeric (Command.init (table := demo_table) "JOIN")
     = Raise TypeError.
Proof.
  split; [reflexivity|].
  split; [reflexivity|].
  apply (try_numeric_raises_without_numeric (table := demo_table) "JOIN");
    reflexivity.
Defined.

Lemma normal_form_of_myinfo :
  Str.isdigit "4" = true
  /\ Command.raw (Command.init (table := demo_table) "4") = "004"
  /\ Command.raw (Command.init (table := demo_table) "004") = "004"
  /\ Command.symbolic (Command.init (table := demo_table) "004")
     = Some "RPL_MYINFO".
Proof.
  split; [reflexivity|].
  assert (Hnz : Str.int "4" <> 0%Z) by discriminate.
  destruct (numeric_raw_is_a_normal_form (table := demo_table) "4" eq_refl Hnz)
    as (Hraw & _ & Hsym & Hraw' & _).
  split; [exact Hraw|].
  split; [exact Hraw'|].
  exact Hsym.
Defined.

Lemma command_equals_texts_of_myinfo_and_join :
  Command.eq_str (Command.init (table := demo_table) "4") "0004" = true
  /\ Command.eq_str (Command.init (table := demo_table) "join") "JOIN" = true.
Proof.
  destruct (command_equals_its_texts (table := demo_table)) as [Hnum Hsym].
  split.
  - assert (Hnz : Str.int "4" <> 0%Z) by discriminate.
    exact (Hnum "4" 3 eq_refl Hnz).
  - exact (Hsym "join" eq_refl eq_refl).
Defined.

Lemma shape_of_join_line :
  exists m,
    Message.from_raw (table := demo_table)
      ":somenick!~someuser@some.host.com JOIN ##core2" = Ok m
    /\ Message.orig m = ":somenick!~someuser@some.host.com JOIN ##core2"
    /\ exists ps,
         Message.params m = map Some ps
         /\ length ps <= 15
         /\ forallb middle (removelast ps) = true.
Proof.
  eexists.
  split; [reflexivity|].
  apply (parsed_message_shape (table := demo_table)
           ":somenick!~someuser@some.host.com JOIN ##core2").
  reflexivity.
Defined.

Lemma prefix_of_nova_reads_back :
  ident "nova" = true
  /\ Prefix.raw (Prefix.init (Some "nova") (Some "~n") (Some "user/nova") None)
     = ":nova!~n@user/nova"
  /\ exists p',
       Prefix.from_raw "nova!~n@user/nova" = Ok p'
       /\ Prefix.name p' = Some "nova"
       /\ Prefix.user p' = Some "~n"
       /\ Prefix.host p' = Some "user/nova"
       /\ Prefix.raw p' = ":nova!~n@user/nova".
Proof.
  split; [reflexivity|].
  split; [reflexivity|].
  apply (prefix_text_reads_back "nova" (Some "~n") (Some "user/nova"));
    reflexivity.
Defined.

Lemma prefixes_with_two_separators :
  Prefix.from_raw "a!b!c" = Raise ValueError
  /\ Message.from_raw (table := demo_table) ":a!b!c PRIVMSG #core2 hi"
     = Raise ValueError
  /\ Prefix.from_raw "a@b@c" = Raise ValueError
  /\ Message.from_raw (table := demo_table) ":a@b@c PRIVMSG #core2 hi"
     = Raise ValueError.
Proof.
  destruct (prefix_with_two_separators_raises (table := demo_table)
              "a" "b" "c" "PRIVMSG #core2 hi")
    as [[Hbang Hbang_line] Hat].
  destruct (Hat eq_refl) as [Hat_prefix Hat_line].
  split; [exact Hbang|].
  split; [exact (Hbang_line eq_refl)|].
  split; [exact Hat_prefix|].
  exact (Hat_line eq_refl).
Defined.

Lemma flags_of_online_server :
  Server.reachable (table := demo_table) online_server
  /\ coherent online_server.
Proof.
  assert (Hr : Server.reachable (table := demo_table) online_server).
  { unfold online_server, demo_server.
    do 2 apply Server.reach_run.
    apply Server.reach_init. }
  split; [exact Hr|].
  exact (flags_agree_in_reachable_states (table := demo_table) online_server Hr).
Defined.




Lemma from_authority_of_libera :
  Server.from_authority "core2bot1@irc.libera.chat:6667"
  = (Ok (Some (Server.init "core2bot1" "irc.libera.chat" 6667 "bot"
                 EmptyString false true OwnNone OwnNone OwnNone)), [])
  /\ Server.authority
       (Server.init "core2bot1" "irc.libera.chat" 6667 "bot" EmptyString
          false true OwnNone OwnNone OwnNone)
     = "core2bot1@irc.libera.chat:6667".
Proof.
  apply (from_authority_reads_authority "core2bot1" "irc.libera.chat" 6667);
    solve [reflexivity | discriminate].
Defined.

Lemma from_authority_of_bad_texts :
  Server.from_authority "irc.libera.chat:6667"
  = (Ok None, [Server.NickMissing "irc.libera.chat:6667"])
  /\ Server.from_authority "core2bot1@irc.libera.chat"
     = (Raise NameError, [Server.HostMissing "core2bot1@irc.libera.chat"])
  /\ Server.from_authority "core2bot1@irc.libera.chat:ircd"
     = (Raise NameError, [Server.PortNotInt "core2bot1@irc.libera.chat:ircd"])
  /\ fst (Server.from_authority "core2bot1@nova@irc.libera.chat:6667")
     = Raise ValueError.
Proof.
  destruct from_authority_failures as (Hnick & Hhost & Hport & Htwo).
  split; [exact (Hnick "irc.libera.chat:6667" eq_refl)|].
  split; [exact (Hhost "core2bot1" "irc.libera.chat" eq_refl eq_refl eq_refl)|].
  split;
    [exact (Hport "core2bot1" "irc.libera.chat" "ircd"
              eq_refl eq_refl eq_refl eq_refl eq_refl eq_refl)|].
  exact (Htwo "core2bot1" "nova" "irc.libera.chat:6667").
Defined.

Lemma bare_ping_ends_the_connection :
  exists m,
    Message.from_raw (table := demo_table) "PING" = Ok m
    /\ Message.params m = []
    /\ Server.raised
         (fst (handle_line (table := demo_table) (matchers := demo_matchers)
                 demo_handler "PING" Server.Delivered wired_server))
       = Some IndexError
    /\ Server._connected
         (Server.state
            (fst (read_line (table := demo_table) (matchers := demo_matchers)
                    demo_handler "PING" Server.Delivered
                    "list index out of range" wired_server)))
       = Some false.
Proof.
  eexists.
  split; [reflexivity|].
  split; [reflexivity|].
  destruct (parameterless_line_ends_the_connection (table := demo_table)
              (matchers := demo_matchers) demo_handler "PING" _
              Server.Delivered "list index out of range" wired_server
              eq_refl eq_refl)
    as (Hraised & _ & Hconn & _).
  split; [exact Hraised | exact Hconn].
Defined.

Lemma ping_of_libera_is_answered :
  Server.is_connected wired_server && Server._socket wired_server = true
  /\ Server.logged
       (fst (handle_line (table := demo_table) (matchers := demo_matchers)
               demo_handler "PING :irc.libera.chat" Server.Delivered
               wired_server))
     = [(DEBUG,
         Plain "core2bot1@irc.libera.chat:6667: <- PING :irc.libera.chat");
        (DEBUG,
         Plain "core2bot1@irc.libera.chat:6667: -> PONG irc.libera.chat")].
Proof.
  split; [reflexivity|].
  rewrite (ping_is_answered (table := demo_table) (matchers := demo_matchers)
             demo_handler "PING :irc.libera.chat" _ "irc.libera.chat" []
             wired_server eq_refl eq_refl eq_refl eq_refl eq_refl eq_refl
             eq_refl eq_refl).
  reflexivity.
Defined.

Lemma ping_hook_is_a_membership_test :
  Hook.process (matchers := demo_matchers) ping_hook demo_server reload_msg
    "!reload" "!reload" = Ok Hook.Skipped
  /\ Hook.process (matchers := demo_matchers) ping_hook demo_server notice_msg
       "!ping" "!ping" = Ok (Hook.Invoked true).
Proof.
  split.
  - rewrite (exact_criteria_are_membership_tests (matchers := demo_matchers)
               ping_hook demo_server reload_msg "!reload" "!reload"
               eq_refl eq_refl eq_refl eq_refl eq_refl eq_refl).
    reflexivity.
  - rewrite (exact_criteria_are_membership_tests (matchers := demo_matchers)
               ping_hook demo_server notice_msg "!ping" "!ping"
               eq_refl eq_refl eq_refl eq_refl eq_refl eq_refl).
    reflexivity.
Defined.

Lemma channel_attribute_fires_always :
  Dict.get "channel" HANDLED_MATCHES = None
  /\ Message.channel reload_msg = Some "#core2"
  /\ Hook.process (matchers := demo_matchers)
       (Hook.init "utils*reload" [("channel", VAtom (AStr "#elsewhere"))])
       demo_server reload_msg "!reload" "!reload"
     = Ok (Hook.Invoked true).
Proof.
  split; [reflexivity|].
  split; [reflexivity|].
  destruct (unrecognised_attribute_fires_always (matchers := demo_matchers)
              "utils*reload" "channel" (VAtom (AStr "#elsewhere"))
              eq_refl eq_refl)
    as [_ Hfires].
  exact (Hfires demo_server reload_msg "!reload" "!reload").
Defined.

Lemma user_glob_on_welcome_raises :
  Hook.glob (Hook._matches tilde_hook) = [("user", [AStr "~*"])]
  /\ Hook.live_msg demo_server welcome_msg "Welcome to IRC" "Welcome" "user"
     = Hook.LNone
  /\ Hook.process (matchers := demo_matchers) tilde_hook demo_server
       welcome_msg "Welcome to IRC" "Welcome"
     = Raise TypeError.
Proof.
  split; [reflexivity|].
  split; [reflexivity|].
  apply (glob_on_absent_value_raises (matchers := demo_matchers) tilde_hook
           demo_server welcome_msg "Welcome to IRC" "Welcome" "user"
           (AStr "~*") [] []).
  - reflexivity.
  - reflexivity.
  - intros v Hv. discriminate Hv.
Defined.

Lemma dispatch_of_reload_message :
  EventHandler.run_hooks (matchers := demo_matchers)
    [("utils*ping", ping_hook); ("useful*op", op_hook);
     ("utils*reload", Hook.init "utils*reload" reload_decl)]
    demo_server reload_msg "!reload" "!reload"
  = EventHandler.mkTrace [("utils*reload", true)] None.
Proof.
  rewrite (dispatch_follows_registry_order (matchers := demo_matchers)).
  - reflexivity.
  - intros e [He | [He | [He | []]]]; subst e; eexists; reflexivity.
Defined.

Lemma dispatch_of_welcome_message :
  Hook.process (matchers := demo_matchers) on_welcome demo_server welcome_msg
    "Welcome to IRC" "Welcome" = Raise AttributeError
  /\ EventHandler.run_hooks (matchers := demo_matchers) welcome_registry
       demo_server welcome_msg "Welcome to IRC" "Welcome"
     = EventHandler.mkTrace [] (Some AttributeError).
Proof.
  split; [reflexivity|].
  change welcome_registry
    with ([("utils*ping", ping_hook)]
          ++ ("useful*welcome", on_welcome) :: [("useful*op", op_hook)]).
  rewrite (raising_hook_ends_the_dispatch (matchers := demo_matchers)
             [("utils*ping", ping_hook)] [("useful*op", op_hook)]
             "useful*welcome" on_welcome AttributeError demo_server
             welcome_msg "Welcome to IRC" "Welcome").
  - reflexivity.
  - intros x [Hx | []]; subst x; eexists; reflexivity.
  - reflexivity.
Defined.

Lemma errors_of_demo_plugins :
  EventHandler.returned (EventHandler.load_hooks [demo_plugins]) = Ok 2
  /\ EventHandler.records (EventHandler.load_hooks [demo_plugins])
     = [(WARNING, HookDiscarded "utils*helper");
        (DEBUG, HookLoaded "utils*reload");
        (ERROR, ModuleError "broken")]
  /\ 2 = length
           (filter counted
              (EventHandler.records (EventHandler.load_hooks [demo_plugins]))).
Proof.
  split; [reflexivity|].
  split; [reflexivity|].
  apply (returned_errors_are_logged [demo_plugins] 2).
  reflexivity.
Defined.

Lemma removal_of_ping_hook :
  NoDup (map fst (EventHandler._hooks demo_handler))
  /\ snd (EventHandler.rm_hook "utils*ping" demo_handler) = true
  /\ EventHandler._hooks (fst (EventHandler.rm_hook "utils*ping" demo_handler))
     = []
  /\ ~ In "utils*ping"
         (map fst
            (EventHandler.invoked
               (EventHandler.process (matchers := demo_matchers)
                  (fst (EventHandler.rm_hook "utils*ping" demo_handler))
                  demo_server reload_msg))).
Proof.
  assert (Hnd : NoDup (map fst (EventHandler._hooks demo_handler))).
  { repeat constructor. intros []. }
  split; [exact Hnd|].
  destruct (removed_hook_is_never_invoked (matchers := demo_matchers)
              demo_handler "utils*ping" Hnd)
    as (Hfound & _ & Hnever & _).
  split; [exact Hfound|].
  split; [reflexivity|].
  exact (Hnever demo_server reload_msg).
Defined.

Lemma raw_text_of_equal_commands :
  Command.eq (Command.init (table := demo_table) "1")
    (Command.init (table := demo_table) "001") = true
  /\ Command.raw (Command.init (table := demo_table) "1")
     = Command.raw (Command.init (table := demo_table) "001")
  /\ Command.eq (Command.init (table := demo_table) "00")
       (Command.init (table := demo_table) "0") = true
  /\ Command.raw (Command.init (table := demo_table) "00") = "00"
  /\ Command.raw (Command.init (table := demo_table) "0") = "0".
Proof.
  destruct (equal_commands_share_their_raw_text (table := demo_table))
    as [Hsame Hzero].
  split; [reflexivity|].
  split; [exact (Hsame "1" "001" eq_refl eq_refl)|].
  destruct (Hzero eq_refl 1) as [Heq Hraw].
  destruct (Hzero eq_refl 0) as [_ Hraw0].
  split; [exact Heq|].
  split; [exact Hraw | exact Hraw0].
Defined.

Lemma privmsg_equals_notice :
  exists m1 m2,
    Message.from_raw (table := demo_table) "PRIVMSG #core2 hi" = Ok m1
    /\ Message.from_raw (table := demo_table) "NOTICE #core2 hi" = Ok m2
    /\ Message.eq m1 m2 = true
    /\ Command.eq (Message.command m1) (Message.command m2) = false.
Proof.
  do 2 eexists.
  split; [reflexivity|].
  split; [reflexivity|].
  split; [|reflexivity].
  apply (message_equality_ignores_the_command
           (Command.init (table := demo_table) "PRIVMSG")
           (Command.init (table := demo_table) "NOTICE")
           [Some "#core2"; Some "hi"] None
           (Some "PRIVMSG #core2 hi") (Some "NOTICE #core2 hi"));
    reflexivity.
Defined.

Lemma bare_join_raises :
  middle "join" = true
  /\ Message.from_raw (table := demo_table) "join" = Raise IndexError
  /\ Message.build (table := demo_table) "join" [] None = Raise IndexError
  /\ handle_line (table := demo_table) (matchers := demo_matchers)
       demo_handler "join" Server.Delivered wired_server
     = (Server.mkOutcome wired_server [] (Some IndexError),
        EventHandler.mkTrace [] None).
Proof.
  split; [reflexivity|].
  apply (channel_command_without_parameter_raises (table := demo_table)
           (matchers := demo_matchers) "join" demo_handler Server.Delivered
           wired_server);
    reflexivity.
Defined.

